(** * Cost rollup and summary engine of the [output] package

    A shallow embedding of [output.go]: the breakdown builder
    ([outputBreakdown], [outputResource], [calculateTotalCosts],
    [sortResources]), the summary builder and merger ([BuildSummary],
    [MergeSummaries], [mergeCounts], [addIntPtrs]), the report assembler
    ([ToOutputFormat]) and the derived message
    ([unsupportedResourcesMessage]).

    Conventions.
    - A Go pointer that may be nil ([*decimal.Decimal], [*int],
      [*map[string]int], [*Breakdown], [*Summary]) is an [option].
    - A Go [map[string]T] is a [gmap string T]; reading a missing key gives
      the zero value of [T].
    - A Go [int] is a [Z] kept in the signed 64-bit range by [wrap].
    - What the package imports but does not define (decimal arithmetic,
      [sort.Slice], the iteration order of [range] over a map,
      [terraform.HasSupportedProvider]) is an interface or a section
      variable; concrete instances are given for evaluating examples. *)

From Stdlib Require Import ZArith Lia Bool.
From Stdlib Require OrderedTypeEx.
From stdpp Require Import base option list strings gmap pretty sorting.

Set Warnings "-register-all".

Local Open Scope Z_scope.
Local Open Scope string_scope.

(** ** Go [int] *)

Definition wrap (z : Z) : Z := (z + 2 ^ 63) mod 2 ^ 64 - 2 ^ 63.

Definition int_add (a b : Z) : Z := wrap (a + b).

Definition in_int_range (z : Z) : Prop := - 2 ^ 63 <= z < 2 ^ 63.

(** ** Imported interfaces *)

(** [decimal.Decimal] with [decimal.Zero] and the method [Add]. *)
Class Decimal (D : Type) := {
  Zero : D;
  Add : D -> D -> D
}.

(** The comparison functions handed to [sort.Slice] that make its result
    sorted: asymmetric and negatively transitive (a strict weak order). *)
Record StrictWeak {A : Type} (less : A -> A -> bool) : Prop := {
  sw_asym : forall a b, less a b = true -> less b a = false;
  sw_negtrans : forall a b c, less a b = false -> less b c = false -> less a c = false
}.

(** [sort.Slice]: the slice afterwards holds the same elements, and no later
    element is less than an earlier one. Its documentation promises nothing
    about elements that compare equal. *)
Class SliceSorter := {
  sort_Slice : forall {A : Type}, (A -> A -> bool) -> list A -> list A;
  sort_Slice_perm : forall (A : Type) (less : A -> A -> bool) (l : list A),
      sort_Slice less l ≡ₚ l;
  sort_Slice_sorted : forall (A : Type) (less : A -> A -> bool) (l : list A),
      StrictWeak less ->
      StronglySorted (fun a b => less b a = false) (sort_Slice less l)
}.

(** [for k, v := range m]: every entry is visited once, in an order the
    language leaves open. *)
Class MapRange := {
  rangeOrder : forall {V : Type}, gmap string V -> list (string * V);
  rangeOrder_perm : forall (V : Type) (m : gmap string V),
      rangeOrder m ≡ₚ map_to_list m
}.

(** ** Package [schema]: the priced resources handed to this package

    Only the fields and accessors that [output.go] reads are represented; a
    cost component is given by the values its accessors return. *)
Module schema.

Record CostComponent (D : Type) := mkCostComponent {
  Name : string;
  UnitWithMultiplier : string;
  UnitMultiplierHourlyQuantity : option D;
  UnitMultiplierMonthlyQuantity : option D;
  UnitMultiplierPrice : D;
  HourlyCost : option D;
  MonthlyCost : option D
}.

Inductive Resource (D : Type) := mkResource {
  rName : string;
  ResourceType : string;
  IsSkipped : bool;
  NoPrice : bool;
  Tags : gmap string string;
  rHourlyCost : option D;
  rMonthlyCost : option D;
  CostComponents : list (CostComponent D);
  SubResources : list (Resource D)
}.

Record Project (M D : Type) := mkProject {
  pName : string;
  Metadata : option M;
  PastResources : list (Resource D);
  Resources : list (Resource D);
  Diff : list (Resource D);
  HasDiff : bool
}.

Arguments mkCostComponent {D}.
Arguments Name {D}.
Arguments UnitWithMultiplier {D}.
Arguments UnitMultiplierHourlyQuantity {D}.
Arguments UnitMultiplierMonthlyQuantity {D}.
Arguments UnitMultiplierPrice {D}.
Arguments HourlyCost {D}.
Arguments MonthlyCost {D}.
Arguments mkResource {D}.
Arguments rName {D}.
Arguments ResourceType {D}.
Arguments IsSkipped {D}.
Arguments NoPrice {D}.
Arguments Tags {D}.
Arguments rHourlyCost {D}.
Arguments rMonthlyCost {D}.
Arguments CostComponents {D}.
Arguments SubResources {D}.
Arguments mkProject {M D}.
Arguments pName {M D}.
Arguments Metadata {M D}.
Arguments PastResources {M D}.
Arguments Resources {M D}.
Arguments Diff {M D}.
Arguments HasDiff {M D}.

End schema.

(** ** Package [output]: data model *)

Definition outputVersion : string := "0.1".

Record CostComponent (D : Type) := mkCostComponent {
  ccName : string;
  Unit : string;
  HourlyQuantity : option D;
  MonthlyQuantity : option D;
  Price : D;
  ccHourlyCost : option D;
  ccMonthlyCost : option D
}.

Inductive Resource (D : Type) := mkResource {
  Name : string;
  Tags : gmap string string;
  Metadata : gmap string string;
  HourlyCost : option D;
  MonthlyCost : option D;
  CostComponents : list (CostComponent D);
  SubResources : list (Resource D)
}.

Record Breakdown (D : Type) := mkBreakdown {
  Resources : list (Resource D);
  TotalHourlyCost : option D;
  TotalMonthlyCost : option D
}.

Record Summary := mkSummary {
  SupportedResourceCounts : option (gmap string Z);
  UnsupportedResourceCounts : option (gmap string Z);
  TotalSupportedResources : option Z;
  TotalUnsupportedResources : option Z;
  TotalNoPriceResources : option Z;
  TotalResources : option Z
}.

Record SummaryOptions := mkSummaryOptions {
  IncludeUnsupportedProviders : bool;
  OnlyFields : list string
}.

Record ProjectResult (M D : Type) := mkProjectResult {
  ProjectName : string;
  ProjectMetadata : option M;
  PastBreakdown : option (Breakdown D);
  prBreakdown : option (Breakdown D);
  prDiff : option (Breakdown D);
  prSummary : option Summary;
  fullSummary : option Summary
}.

Record Root (M D : Type) := mkRoot {
  Version : string;
  rootResources : list (Resource D);
  rootTotalHourlyCost : option D;
  rootTotalMonthlyCost : option D;
  RunID : string;
  ProjectResults : list (ProjectResult M D);
  TimeGenerated : Z
}.

Arguments mkCostComponent {D}.
Arguments ccName {D}.
Arguments Unit {D}.
Arguments HourlyQuantity {D}.
Arguments MonthlyQuantity {D}.
Arguments Price {D}.
Arguments ccHourlyCost {D}.
Arguments ccMonthlyCost {D}.
Arguments mkResource {D}.
Arguments Name {D}.
Arguments Tags {D}.
Arguments Metadata {D}.
Arguments HourlyCost {D}.
Arguments MonthlyCost {D}.
Arguments CostComponents {D}.
Arguments SubResources {D}.
Arguments mkBreakdown {D}.
Arguments Resources {D}.
Arguments TotalHourlyCost {D}.
Arguments TotalMonthlyCost {D}.
Arguments mkProjectResult {M D}.
Arguments ProjectName {M D}.
Arguments ProjectMetadata {M D}.
Arguments PastBreakdown {M D}.
Arguments prBreakdown {M D}.
Arguments prDiff {M D}.
Arguments prSummary {M D}.
Arguments fullSummary {M D}.
Arguments mkRoot {M D}.
Arguments Version {M D}.
Arguments rootResources {M D}.
Arguments rootTotalHourlyCost {M D}.
Arguments rootTotalMonthlyCost {M D}.
Arguments RunID {M D}.
Arguments ProjectResults {M D}.
Arguments TimeGenerated {M D}.

(** ** Package [output]: functions *)

Definition newline : string := String (Ascii.ascii_of_nat 10) EmptyString.

Fixpoint contains (arr : list string) (e : string) : bool :=
  match arr with
  | [] => false
  | a :: arr' => if String.eqb a e then true else contains arr' e
  end.

Definition addIntPtrs (i1 i2 : option Z) : option Z :=
  match i1, i2 with
  | None, None => None
  | _, _ =>
      let val1 := match i1 with Some v => v | None => 0 end in
      let val2 := match i2 with Some v => v | None => 0 end in
      Some (int_add val1 val2)
  end.

(** [m[k]] for a map of counts: the zero value when the key is missing. *)
Definition count_at (m : gmap string Z) (k : string) : Z := default 0 (m !! k).

(** [if _, ok := m[t]; !ok { m[t] = 0 }; m[t]++] *)
Definition incrCount (m : gmap string Z) (t : string) : gmap string Z :=
  let m' := match m !! t with Some _ => m | None => <[t := 0]> m end in
  <[t := int_add (count_at m' t) 1]> m'.

Section Merge.
Context `{MapRange}.

Definition mergeCounts (c1 c2 : option (gmap string Z)) : option (gmap string Z) :=
  match c1, c2 with
  | None, None => None
  | _, _ =>
      let res : gmap string Z := ∅ in
      let res :=
        match c1 with
        | Some m1 => fold_left (fun res kv => <[kv.1 := kv.2]> res) (rangeOrder m1) res
        | None => res
        end in
      let res :=
        match c2 with
        | Some m2 =>
            fold_left (fun res kv => <[kv.1 := int_add (count_at res kv.1) kv.2]> res)
                      (rangeOrder m2) res
        | None => res
        end in
      Some res
  end.

Definition emptySummary : Summary := mkSummary None None None None None None.

Definition mergeStep (merged : Summary) (s : option Summary) : Summary :=
  match s with
  | None => merged
  | Some s =>
      {| SupportedResourceCounts :=
           mergeCounts (SupportedResourceCounts merged) (SupportedResourceCounts s);
         UnsupportedResourceCounts :=
           mergeCounts (UnsupportedResourceCounts merged) (UnsupportedResourceCounts s);
         TotalSupportedResources :=
           addIntPtrs (TotalSupportedResources merged) (TotalSupportedResources s);
         TotalUnsupportedResources :=
           addIntPtrs (TotalUnsupportedResources merged) (TotalUnsupportedResources s);
         TotalNoPriceResources :=
           addIntPtrs (TotalNoPriceResources merged) (TotalNoPriceResources s);
         TotalResources :=
           addIntPtrs (TotalResources merged) (TotalResources s) |}
  end.

Definition MergeSummaries (summaries : list (option Summary)) : Summary :=
  fold_left mergeStep summaries emptySummary.

End Merge.

Section Summaries.
Context {D : Type}.
(** [terraform.HasSupportedProvider], defined elsewhere in the
    [terraform] package. *)
Variable HasSupportedProvider : string -> bool.

(** The five accumulators of the classification loop. *)
Record counters := mkCounters {
  supportedResourceCounts : gmap string Z;
  unsupportedResourceCounts : gmap string Z;
  totalSupportedResources : Z;
  totalUnsupportedResources : Z;
  totalNoPriceResources : Z
}.

Definition initCounters : counters := mkCounters ∅ ∅ 0 0 0.

Definition classify (opts : SummaryOptions) (c : counters) (r : schema.Resource D)
  : counters :=
  if negb (IncludeUnsupportedProviders opts)
     && negb (HasSupportedProvider (schema.ResourceType r))
  then c
  else if schema.NoPrice r then
    {| supportedResourceCounts := supportedResourceCounts c;
       unsupportedResourceCounts := unsupportedResourceCounts c;
       totalSupportedResources := totalSupportedResources c;
       totalUnsupportedResources := totalUnsupportedResources c;
       totalNoPriceResources := int_add (totalNoPriceResources c) 1 |}
  else if schema.IsSkipped r then
    {| supportedResourceCounts := supportedResourceCounts c;
       unsupportedResourceCounts :=
         incrCount (unsupportedResourceCounts c) (schema.ResourceType r);
       totalSupportedResources := totalSupportedResources c;
       totalUnsupportedResources := int_add (totalUnsupportedResources c) 1;
       totalNoPriceResources := totalNoPriceResources c |}
  else
    {| supportedResourceCounts :=
         incrCount (supportedResourceCounts c) (schema.ResourceType r);
       unsupportedResourceCounts := unsupportedResourceCounts c;
       totalSupportedResources := int_add (totalSupportedResources c) 1;
       totalUnsupportedResources := totalUnsupportedResources c;
       totalNoPriceResources := totalNoPriceResources c |}.

(** [len(opts.OnlyFields) == 0 || contains(opts.OnlyFields, key)] *)
Definition selected (opts : SummaryOptions) (key : string) : bool :=
  (length (OnlyFields opts) =? 0)%nat || contains (OnlyFields opts) key.

Definition BuildSummary (resources : list (schema.Resource D)) (opts : SummaryOptions)
  : Summary :=
  let c := fold_left (classify opts) resources initCounters in
  let totalResources := Z.of_nat (length resources) in
  {| SupportedResourceCounts :=
       if selected opts "SupportedResourceCounts"
       then Some (supportedResourceCounts c) else None;
     UnsupportedResourceCounts :=
       if selected opts "UnsupportedResourceCounts"
       then Some (unsupportedResourceCounts c) else None;
     TotalSupportedResources :=
       if selected opts "TotalSupportedResources"
       then Some (totalSupportedResources c) else None;
     TotalUnsupportedResources :=
       if selected opts "TotalUnsupportedResources"
       then Some (totalUnsupportedResources c) else None;
     TotalNoPriceResources :=
       if selected opts "TotalNoPriceResources"
       then Some (totalNoPriceResources c) else None;
     TotalResources :=
       if selected opts "Total" then Some totalResources else None |}.

End Summaries.

Section Breakdowns.
Context {D : Type} `{Decimal D} `{SliceSorter}.

Fixpoint outputResource (r : schema.Resource D) : Resource D :=
  match r with
  | schema.mkResource name _ _ _ tags hourly monthly components subs =>
      let comps :=
        map (fun c : schema.CostComponent D =>
               {| ccName := schema.Name c;
                  Unit := schema.UnitWithMultiplier c;
                  HourlyQuantity := schema.UnitMultiplierHourlyQuantity c;
                  MonthlyQuantity := schema.UnitMultiplierMonthlyQuantity c;
                  Price := schema.UnitMultiplierPrice c;
                  ccHourlyCost := schema.HourlyCost c;
                  ccMonthlyCost := schema.MonthlyCost c |}) components in
      let subresources := map outputResource subs in
      {| Name := name;
         Metadata := ∅;
         Tags := tags;
         HourlyCost := hourly;
         MonthlyCost := monthly;
         CostComponents := comps;
         SubResources := subresources |}
  end.

(** [resources[i].Metadata[groupKey]] *)
Definition metadata_at (r : Resource D) (groupKey : string) : string :=
  default "" (Metadata r !! groupKey).

(** The closure handed to [sort.Slice] by [sortResources]. *)
Definition resourceLess (groupKey : string) (ri rj : Resource D) : bool :=
  if String.eqb groupKey "" then String.ltb (Name ri) (Name rj)
  else if String.eqb (metadata_at ri groupKey) (metadata_at rj groupKey)
       then String.ltb (Name ri) (Name rj)
       else String.ltb (metadata_at ri groupKey) (metadata_at rj groupKey).

Definition sortResources (resources : list (Resource D)) (groupKey : string)
  : list (Resource D) :=
  sort_Slice (resourceLess groupKey) resources.

(** The accumulation written out four times in the source:
    [if cost != nil { if total == nil { total = &Zero }; total = &total.Add( *cost) }] *)
Definition addToTotal (total cost : option D) : option D :=
  match cost with
  | Some c =>
      let t := match total with Some t => t | None => Zero end in
      Some (Add t c)
  | None => total
  end.

Definition calculateTotalCosts (resources : list (Resource D)) : option D * option D :=
  fold_left
    (fun (totals : option D * option D) r =>
       let '(totalHourlyCost, totalMonthlyCost) := totals in
       (addToTotal totalHourlyCost (HourlyCost r),
        addToTotal totalMonthlyCost (MonthlyCost r)))
    resources (Some Zero, Some Zero).

(** The loop of [outputBreakdown]: skipped resources are passed over, the
    others are normalized and appended. *)
Fixpoint collectResources (resources : list (schema.Resource D)) : list (Resource D) :=
  match resources with
  | [] => []
  | r :: rest =>
      if schema.IsSkipped r then collectResources rest
      else outputResource r :: collectResources rest
  end.

(** The two locals carry the names they have in the source: the first
    result of [calculateTotalCosts] (the hourly total) is bound to
    [totalMonthlyCost], the second to [totalHourlyCost]. *)
Definition outputBreakdown (resources : list (schema.Resource D)) : Breakdown D :=
  let arr := collectResources resources in
  let arr := sortResources arr "" in
  let '(totalMonthlyCost, totalHourlyCost) := calculateTotalCosts arr in
  {| Resources := arr;
     TotalHourlyCost := totalMonthlyCost;
     TotalMonthlyCost := totalHourlyCost |}.

End Breakdowns.

Section Report.
Context {M D : Type} `{Decimal D} `{SliceSorter} `{MapRange}.
Variable HasSupportedProvider : string -> bool.

(** The state of the loop of [ToOutputFormat]. *)
Record assembly := mkAssembly {
  totalHourlyCost : option D;
  totalMonthlyCost : option D;
  outProjectResults : list (ProjectResult M D);
  outResources : list (Resource D)
}.

(** The two updates of the report-wide totals for one project's
    breakdown (the guards [breakdown != nil && breakdown.Total... != nil]). *)
Definition rollTotals (totals : option D * option D) (breakdown : option (Breakdown D))
  : option D * option D :=
  let '(hourly, monthly) := totals in
  match breakdown with
  | Some b => (addToTotal hourly (TotalHourlyCost b), addToTotal monthly (TotalMonthlyCost b))
  | None => (hourly, monthly)
  end.

Definition projectStep (st : assembly) (project : schema.Project M D) : assembly :=
  let breakdown := Some (outputBreakdown (schema.Resources project)) in
  let '(pastBreakdown, diff) :=
    if schema.HasDiff project
    then (Some (outputBreakdown (schema.PastResources project)),
          Some (outputBreakdown (schema.Diff project)))
    else (None, None) in
  let outResources' :=
    match breakdown with
    | Some b => (outResources st ++ Resources b)%list
    | None => outResources st
    end in
  let '(hourly, monthly) :=
    rollTotals (totalHourlyCost st, totalMonthlyCost st) breakdown in
  let summary :=
    BuildSummary HasSupportedProvider (schema.Resources project)
      {| IncludeUnsupportedProviders := false;
         OnlyFields := ["UnsupportedResourceCounts"] |} in
  let fullSummary' :=
    BuildSummary HasSupportedProvider (schema.Resources project)
      {| IncludeUnsupportedProviders := true; OnlyFields := [] |} in
  {| totalHourlyCost := hourly;
     totalMonthlyCost := monthly;
     outProjectResults :=
       (outProjectResults st ++
         [ {| ProjectName := schema.pName project;
              ProjectMetadata := schema.Metadata project;
              PastBreakdown := pastBreakdown;
              prBreakdown := breakdown;
              prDiff := diff;
              prSummary := Some summary;
              fullSummary := Some fullSummary' |} ])%list;
     outResources := outResources' |}.

(** [now] is the value of [time.Now()] at the call. *)
Definition ToOutputFormat (now : Z) (projects : list (schema.Project M D)) : Root M D :=
  let st := fold_left projectStep projects (mkAssembly None None [] []) in
  {| Version := outputVersion;
     rootResources := sortResources (outResources st) "";
     rootTotalHourlyCost := totalHourlyCost st;
     rootTotalMonthlyCost := totalMonthlyCost st;
     RunID := "";
     ProjectResults := outProjectResults st;
     TimeGenerated := now |}.

Definition MergedSummary (r : Root M D) : Summary :=
  MergeSummaries (map prSummary (ProjectResults r)).

Definition MergedFullSummary (r : Root M D) : Summary :=
  MergeSummaries (map fullSummary (ProjectResults r)).

Definition pluralMsg : string :=
  "resource types weren't estimated as they're not supported yet".
Definition singularMsg : string :=
  "resource type wasn't estimated as it's not supported yet".
Definition rerunHint : string := ", rerun with --show-skipped to see".
Definition callToAction : string :=
  "Please watch/star https://github.com/infracost/infracost as new resources are added regularly.".

(** [fmt.Sprintf] with the verb [%d] prints an [int] in decimal, which is
    what [pretty] does on [Z]. *)
Definition unsupportedResourcesMessage (r : Root M D) (showSkipped : bool) : string :=
  let summary := MergedSummary r in
  match UnsupportedResourceCounts summary with
  | None => ""
  | Some counts =>
      if (size counts =? 0)%nat then ""
      else
        let unsupportedTypeCount := Z.of_nat (size counts) in
        let unsupportedMsg :=
          if Z.eqb unsupportedTypeCount 1 then singularMsg else pluralMsg in
        let showSkippedMsg := if showSkipped then "" else rerunHint in
        let msg :=
          pretty unsupportedTypeCount +:+ " " +:+ unsupportedMsg +:+ showSkippedMsg
            +:+ "." +:+ newline +:+ callToAction in
        if showSkipped
        then fold_left
               (fun msg (tc : string * Z) =>
                  msg +:+ (newline +:+ pretty tc.2 +:+ " x " +:+ tc.1))
               (rangeOrder counts) msg
        else msg
  end.

End Report.

(** ** Instances of the imported interfaces, for evaluating examples *)

(** A decimal as mantissa and exponent (the number [value * 10 ^ exp]), the
    representation arbitrary-precision decimal packages use; addition is
    exact, at the smaller of the two exponents. *)
Record decimal := mkDecimal { value : Z; exp : Z }.

Definition decimal_add (d1 d2 : decimal) : decimal :=
  let e := Z.min (exp d1) (exp d2) in
  {| value := value d1 * 10 ^ (exp d1 - e) + value d2 * 10 ^ (exp d2 - e);
     exp := e |}.

#[export] Instance decimal_ops : Decimal decimal :=
  {| Zero := mkDecimal 0 1; Add := decimal_add |}.

(** Insertion sort as in Go's [insertionSort]: each element in turn moves
    left while it is less than its left neighbour. [sort.Slice] runs exactly
    this on short slices. The sorted prefix is kept reversed, so that the
    head of [prefix] is the left neighbour. *)
Fixpoint sink {A : Type} (less : A -> A -> bool) (x : A) (prefix : list A) : list A :=
  match prefix with
  | [] => [x]
  | y :: prefix' => if less x y then y :: sink less x prefix' else x :: y :: prefix'
  end.

Definition insertionSort {A : Type} (less : A -> A -> bool) (l : list A) : list A :=
  reverse (fold_left (fun prefix x => sink less x prefix) l []).

Lemma sink_perm {A : Type} (less : A -> A -> bool) (x : A) (prefix : list A) :
  sink less x prefix ≡ₚ x :: prefix.
Proof.
  induction prefix as [|y prefix IH]; simpl; [done|].
  destruct (less x y); [|done].
  rewrite IH. apply Permutation_swap.
Qed.

Lemma sink_fold_perm {A : Type} (less : A -> A -> bool) (l acc : list A) :
  fold_left (fun prefix x => sink less x prefix) l acc ≡ₚ (l ++ acc)%list.
Proof.
  revert acc. induction l as [|x l IH]; intros acc; simpl; [done|].
  rewrite IH, sink_perm. by rewrite Permutation_middle.
Qed.

Lemma insertionSort_perm {A : Type} (less : A -> A -> bool) (l : list A) :
  insertionSort less l ≡ₚ l.
Proof.
  unfold insertionSort. rewrite reverse_Permutation, sink_fold_perm.
  by rewrite app_nil_r.
Qed.

Lemma sink_sorted {A : Type} (less : A -> A -> bool) (x : A) (prefix : list A) :
  StrictWeak less ->
  StronglySorted (fun a b => less a b = false) prefix ->
  StronglySorted (fun a b => less a b = false) (sink less x prefix).
Proof.
  intros [Hasym Hneg]. induction 1 as [|y prefix Hs IH Hy]; simpl.
  - repeat constructor.
  - destruct (less x y) eqn:Hxy.
    + constructor; [exact IH|].
      rewrite sink_perm. constructor; [by apply Hasym | exact Hy].
    + constructor; [by constructor|].
      constructor; [exact Hxy|].
      eapply Forall_impl; [exact Hy|]. intros b Hb. by eapply Hneg.
Qed.

Lemma sink_fold_sorted {A : Type} (less : A -> A -> bool) (l acc : list A) :
  StrictWeak less ->
  StronglySorted (fun a b => less a b = false) acc ->
  StronglySorted (fun a b => less a b = false)
    (fold_left (fun prefix x => sink less x prefix) l acc).
Proof.
  intros Hsw. revert acc. induction l as [|x l IH]; intros acc Hacc; simpl; [done|].
  by apply IH, sink_sorted.
Qed.

Lemma StronglySorted_reverse_flip {A : Type} (R : relation A) (l : list A) :
  StronglySorted R l -> StronglySorted (flip R) (reverse l).
Proof.
  induction 1 as [|x l Hs IH Hx]; [constructor|].
  rewrite reverse_cons. apply StronglySorted_app_2; [|exact IH|repeat constructor].
  intros a b Ha Hb. apply list_elem_of_singleton in Hb as ->.
  rewrite elem_of_reverse in Ha. unfold flip.
  rewrite Forall_forall in Hx. by apply Hx.
Qed.

Lemma insertionSort_sorted {A : Type} (less : A -> A -> bool) (l : list A) :
  StrictWeak less ->
  StronglySorted (fun a b => less b a = false) (insertionSort less l).
Proof.
  intros Hsw. unfold insertionSort.
  apply (StronglySorted_reverse_flip (fun a b => less a b = false)).
  apply sink_fold_sorted; [done|constructor].
Qed.

Lemma sink_fold_sorted_input {A : Type} (less : A -> A -> bool) (l acc : list A) :
  (forall y x, y ∈ acc -> x ∈ l -> less x y = false) ->
  StronglySorted (fun a b => less b a = false) l ->
  fold_left (fun prefix x => sink less x prefix) l acc = (reverse l ++ acc)%list.
Proof.
  intros Hacc Hl. revert acc Hacc.
  induction Hl as [|x l Hl IH Hx]; intros acc Hacc; [done|].
  cbn [fold_left].
  assert (sink less x acc = x :: acc) as ->.
  { destruct acc as [|y acc]; [done|]. cbn.
    by rewrite (Hacc y x) by (left || by left). }
  rewrite IH, reverse_cons, <- app_assoc; [done|].
  intros y x' [->|Hy]%elem_of_cons Hx'.
  - rewrite Forall_forall in Hx. by apply Hx.
  - apply Hacc; [done | by right].
Qed.

(** Insertion sort leaves a sorted slice as it is. *)
Lemma insertionSort_sorted_input {A : Type} (less : A -> A -> bool) (l : list A) :
  StronglySorted (fun a b => less b a = false) l -> insertionSort less l = l.
Proof.
  intros Hl. unfold insertionSort.
  rewrite sink_fold_sorted_input; [|by intros ? ? ?%elem_of_nil|done].
  by rewrite app_nil_r, reverse_involutive.
Qed.

Lemma insertionSort_idempotent {A : Type} (less : A -> A -> bool) (l : list A) :
  StrictWeak less ->
  insertionSort less (insertionSort less l) = insertionSort less l.
Proof. intros Hsw. by apply insertionSort_sorted_input, insertionSort_sorted. Qed.

#[export] Instance insertion_sorter : SliceSorter :=
  {| sort_Slice := @insertionSort;
     sort_Slice_perm := @insertionSort_perm;
     sort_Slice_sorted := @insertionSort_sorted |}.

(** Visiting the entries of a map in the order [map_to_list] lists them. *)
#[export] Instance listed_range : MapRange :=
  {| rangeOrder := fun V (m : gmap string V) => map_to_list m;
     rangeOrder_perm := fun V (m : gmap string V) => reflexivity (map_to_list m) |}.

(** A provider test in the style of the [terraform] package: resource types
    of the two supported providers carry their prefix. *)
Definition prefixProvider (rType : string) : bool :=
  String.prefix "aws_" rType || String.prefix "google_" rType.

(** * Properties *)

(** ** Go [int] arithmetic *)

Lemma wrap_in_range (z : Z) : in_int_range z -> wrap z = z.
Proof.
  unfold in_int_range, wrap. intros Hz.
  rewrite Z.mod_small by lia. lia.
Qed.

Lemma wrap_range (z : Z) : in_int_range (wrap z).
Proof.
  unfold in_int_range, wrap.
  pose proof (Z.mod_pos_bound (z + 2 ^ 63) (2 ^ 64)). lia.
Qed.

Lemma wrap_add_l (a b : Z) : wrap (wrap a + b) = wrap (a + b).
Proof.
  unfold wrap. f_equal.
  replace ((a + 2 ^ 63) mod 2 ^ 64 - 2 ^ 63 + b + 2 ^ 63)
    with ((a + 2 ^ 63) mod 2 ^ 64 + b) by lia.
  rewrite Zplus_mod_idemp_l. f_equal. lia.
Qed.

Lemma wrap_idem (z : Z) : wrap (wrap z) = wrap z.
Proof. apply wrap_in_range, wrap_range. Qed.

Lemma int_add_0_l (z : Z) : in_int_range z -> int_add 0 z = z.
Proof. intros Hz. unfold int_add. by rewrite Z.add_0_l, wrap_in_range. Qed.

(** ** [contains] *)

Lemma contains_elem_of (arr : list string) (e : string) :
  contains arr e = true <-> e ∈ arr.
Proof.
  induction arr as [|a arr IH]; simpl.
  - split; [discriminate | by intros ?%elem_of_nil].
  - destruct (String.eqb a e) eqn:Hae.
    + apply String.eqb_eq in Hae as ->. split; [left | done].
    + apply String.eqb_neq in Hae. rewrite IH. split.
      * by right.
      * intros [->|?]%elem_of_cons; [congruence | done].
Qed.

(** ** The cost aggregator *)

Section AggregatorFacts.
Context {D : Type} `{Decimal D} `{SliceSorter}.

(** The sum of a list of decimals, added up from [Zero] in list order. *)
Definition decimalSum (costs : list D) : D := fold_left Add costs Zero.

(** The costs that are present (non-nil), in list order. *)
Definition presentCosts {R : Type} (cost : R -> option D) (l : list R) : list D :=
  omap cost l.

Lemma addToTotal_Some (t : D) (cost : option D) :
  addToTotal (Some t) cost = Some (fold_left Add (option_list cost) t).
Proof. by destruct cost. Qed.

Lemma calculateTotalCosts_from (resources : list (Resource D)) (h m : D) :
  fold_left
    (fun (totals : option D * option D) r =>
       let '(totalHourlyCost, totalMonthlyCost) := totals in
       (addToTotal totalHourlyCost (HourlyCost r),
        addToTotal totalMonthlyCost (MonthlyCost r)))
    resources (Some h, Some m)
  = (Some (fold_left Add (presentCosts HourlyCost resources) h),
     Some (fold_left Add (presentCosts MonthlyCost resources) m)).
Proof.
  revert h m. induction resources as [|r resources IH]; intros h m; [done|].
  cbn [fold_left]. rewrite !addToTotal_Some, IH.
  unfold presentCosts. simpl.
  by destruct (HourlyCost r), (MonthlyCost r).
Qed.

(** C1. For every list of normalized resources, [calculateTotalCosts]
    returns as hourly total the sum of the hourly costs that are present
    and as monthly total the sum of the monthly costs that are present;
    for the empty list both are [Zero], present and not nil; and the
    breakdown built by [outputBreakdown] carries the hourly total of its
    resources in [TotalHourlyCost] and the monthly total in
    [TotalMonthlyCost]. *)
Theorem calculateTotalCosts_sums :
  (forall resources : list (Resource D),
      calculateTotalCosts resources
      = (Some (decimalSum (presentCosts HourlyCost resources)),
         Some (decimalSum (presentCosts MonthlyCost resources))))
  /\ calculateTotalCosts [] = (Some Zero, Some Zero)
  /\ (forall resources : list (schema.Resource D),
         let b := outputBreakdown resources in
         TotalHourlyCost b = fst (calculateTotalCosts (Resources b))
         /\ TotalMonthlyCost b = snd (calculateTotalCosts (Resources b))
         /\ TotalHourlyCost b = Some (decimalSum (presentCosts HourlyCost (Resources b)))
         /\ TotalMonthlyCost b = Some (decimalSum (presentCosts MonthlyCost (Resources b)))).
Proof.
  assert (Hsum : forall resources : list (Resource D),
             calculateTotalCosts resources
             = (Some (decimalSum (presentCosts HourlyCost resources)),
                Some (decimalSum (presentCosts MonthlyCost resources)))).
  { intros resources. apply calculateTotalCosts_from. }
  split; [exact Hsum|]. split; [reflexivity|].
  intros resources b. subst b. unfold outputBreakdown.
  rewrite Hsum. cbn [Resources TotalHourlyCost TotalMonthlyCost].
  rewrite Hsum. by cbn [fst snd].
Qed.

End AggregatorFacts.

(** ** The summary builder *)

Lemma incrCount_insert (m : gmap string Z) (t : string) :
  incrCount m t = <[t := int_add (count_at m t) 1]> m.
Proof.
  unfold incrCount. destruct (m !! t) as [n|] eqn:Hm; [done|].
  unfold count_at. rewrite lookup_insert_eq, Hm. cbn.
  apply insert_insert_eq.
Qed.

Lemma incrCount_comm (m : gmap string Z) (t t' : string) :
  incrCount (incrCount m t) t' = incrCount (incrCount m t') t.
Proof.
  destruct (decide (t = t')) as [->|Hne]; [done|].
  rewrite !incrCount_insert. unfold count_at.
  rewrite !lookup_insert_ne by done.
  by apply insert_insert_ne.
Qed.

Lemma fold_left_move {A B : Type} (f : A -> B -> A) (l1 l2 : list B) (x : B) (a : A) :
  (forall a x y, f (f a x) y = f (f a y) x) ->
  fold_left f (l1 ++ x :: l2)%list a = f (fold_left f (l1 ++ l2)%list a) x.
Proof.
  intros Hcomm. rewrite !fold_left_app. cbn [fold_left].
  generalize (fold_left f l1 a). clear a l1.
  induction l2 as [|y l2 IH]; intros a; cbn [fold_left]; [done|].
  by rewrite Hcomm, IH.
Qed.

Section SummaryFacts.
Context {D : Type}.
Variable HasSupportedProvider : string -> bool.

(** A resource reaches the classification only if all providers are
    included or its own provider is supported. *)
Definition passesProviderFilter (opts : SummaryOptions) (r : schema.Resource D) : bool :=
  IncludeUnsupportedProviders opts || HasSupportedProvider (schema.ResourceType r).

Lemma classify_comm (opts : SummaryOptions) (c : counters) (r r' : schema.Resource D) :
  classify HasSupportedProvider opts (classify HasSupportedProvider opts c r) r'
  = classify HasSupportedProvider opts (classify HasSupportedProvider opts c r') r.
Proof.
  unfold classify.
  destruct (negb (IncludeUnsupportedProviders opts)
            && negb (HasSupportedProvider (schema.ResourceType r))),
    (negb (IncludeUnsupportedProviders opts)
     && negb (HasSupportedProvider (schema.ResourceType r'))),
    (schema.NoPrice r), (schema.NoPrice r'),
    (schema.IsSkipped r), (schema.IsSkipped r');
    cbn; try reflexivity; f_equal; apply incrCount_comm.
Qed.

Lemma classify_move (opts : SummaryOptions) (l1 l2 : list (schema.Resource D))
      (r : schema.Resource D) :
  fold_left (classify HasSupportedProvider opts) (l1 ++ r :: l2)%list initCounters
  = classify HasSupportedProvider opts
      (fold_left (classify HasSupportedProvider opts) (l1 ++ l2)%list initCounters) r.
Proof. apply fold_left_move. intros. apply classify_comm. Qed.

Lemma classify_skipped (opts : SummaryOptions) (c : counters) (r : schema.Resource D) :
  schema.IsSkipped r = true ->
  supportedResourceCounts (classify HasSupportedProvider opts c r) = supportedResourceCounts c
  /\ totalSupportedResources (classify HasSupportedProvider opts c r) = totalSupportedResources c.
Proof.
  intros Hsk. unfold classify. rewrite Hsk.
  by destruct (negb _ && negb _), (schema.NoPrice r).
Qed.

Lemma classify_unsupported (opts : SummaryOptions) (c : counters) (r : schema.Resource D) :
  schema.IsSkipped r = true ->
  schema.NoPrice r = false ->
  passesProviderFilter opts r = true ->
  unsupportedResourceCounts (classify HasSupportedProvider opts c r)
  = incrCount (unsupportedResourceCounts c) (schema.ResourceType r)
  /\ totalUnsupportedResources (classify HasSupportedProvider opts c r)
     = int_add (totalUnsupportedResources c) 1.
Proof.
  unfold passesProviderFilter, classify. intros -> -> Hpass.
  destruct (IncludeUnsupportedProviders opts),
    (HasSupportedProvider (schema.ResourceType r)); by try discriminate.
Qed.

Lemma classify_unsupported_noPrice (opts : SummaryOptions) (c : counters)
      (r : schema.Resource D) :
  schema.NoPrice r = false ->
  totalNoPriceResources (classify HasSupportedProvider opts c r) = totalNoPriceResources c.
Proof.
  unfold classify. intros ->.
  by destruct (negb _ && negb _), (schema.IsSkipped r).
Qed.

Lemma classify_noPrice (opts : SummaryOptions) (c : counters) (r : schema.Resource D) :
  schema.NoPrice r = true ->
  passesProviderFilter opts r = true ->
  unsupportedResourceCounts (classify HasSupportedProvider opts c r)
  = unsupportedResourceCounts c
  /\ totalUnsupportedResources (classify HasSupportedProvider opts c r)
     = totalUnsupportedResources c
  /\ totalNoPriceResources (classify HasSupportedProvider opts c r)
     = int_add (totalNoPriceResources c) 1.
Proof.
  unfold passesProviderFilter, classify. intros -> Hpass.
  destruct (IncludeUnsupportedProviders opts),
    (HasSupportedProvider (schema.ResourceType r)); by try discriminate.
Qed.

Lemma classify_filtered (opts : SummaryOptions) (c : counters) (r : schema.Resource D) :
  passesProviderFilter opts r = false ->
  classify HasSupportedProvider opts c r = c.
Proof.
  unfold passesProviderFilter, classify. intros Hpass.
  destruct (IncludeUnsupportedProviders opts),
    (HasSupportedProvider (schema.ResourceType r)); by try discriminate.
Qed.

(** The five fields whose selector is their own name. *)
Lemma BuildSummary_named_fields (resources : list (schema.Resource D))
      (opts : SummaryOptions) :
  OnlyFields opts <> [] ->
  (is_Some (SupportedResourceCounts (BuildSummary HasSupportedProvider resources opts))
     <-> "SupportedResourceCounts" ∈ OnlyFields opts)
  /\ (is_Some (UnsupportedResourceCounts (BuildSummary HasSupportedProvider resources opts))
     <-> "UnsupportedResourceCounts" ∈ OnlyFields opts)
  /\ (is_Some (TotalSupportedResources (BuildSummary HasSupportedProvider resources opts))
     <-> "TotalSupportedResources" ∈ OnlyFields opts)
  /\ (is_Some (TotalUnsupportedResources (BuildSummary HasSupportedProvider resources opts))
     <-> "TotalUnsupportedResources" ∈ OnlyFields opts)
  /\ (is_Some (TotalNoPriceResources (BuildSummary HasSupportedProvider resources opts))
     <-> "TotalNoPriceResources" ∈ OnlyFields opts).
Proof.
  intros Hne. unfold BuildSummary, selected. cbn.
  destruct (OnlyFields opts) as [|f fs] eqn:Hfs; [done|]. cbn [length Nat.eqb orb].
  repeat split; intros Hx;
    first [ apply contains_elem_of; by destruct (contains (f :: fs) _); [|destruct Hx]
          | apply contains_elem_of in Hx; by rewrite Hx ].
Qed.

(** C7. With a non-empty [OnlyFields] the fields that come back non-nil
    are not exactly the requested ones: asking for the field
    [TotalResources] by its name returns a summary in which every field,
    [TotalResources] included, is nil, for every resource list; and the
    entry ["Total"], which is the name of no field, fills [TotalResources]
    alone. *)
Theorem BuildSummary_TotalResources_by_name_nil
        (resources : list (schema.Resource D)) (includeUnsupported : bool) :
  BuildSummary HasSupportedProvider resources
    (mkSummaryOptions includeUnsupported ["TotalResources"])
  = mkSummary None None None None None None
  /\ BuildSummary HasSupportedProvider resources
       (mkSummaryOptions includeUnsupported ["Total"])
     = mkSummary None None None None None (Some (Z.of_nat (length resources))).
Proof. split; reflexivity. Qed.

(** C8. Whenever [TotalResources] is populated it is the length of the raw
    input list: every resource seen is counted, whatever its provider and
    whatever the provider filter excludes from the classification. *)
Theorem BuildSummary_TotalResources_length
        (resources : list (schema.Resource D)) (opts : SummaryOptions) (n : Z) :
  TotalResources (BuildSummary HasSupportedProvider resources opts) = Some n ->
  n = Z.of_nat (length resources).
Proof.
  unfold BuildSummary. cbn.
  destruct (selected opts "Total"); congruence.
Qed.

(** C10. [TotalResources] is selected by the entry ["Total"]: a non-empty
    [OnlyFields] that holds ["TotalResources"] but not ["Total"] leaves
    the field nil, while an [OnlyFields] that holds ["Total"], or an empty
    one, fills it (with the length of the input list). *)
Theorem BuildSummary_TotalResources_selector
        (resources : list (schema.Resource D)) (opts : SummaryOptions) :
  ("TotalResources" ∈ OnlyFields opts -> "Total" ∉ OnlyFields opts ->
   TotalResources (BuildSummary HasSupportedProvider resources opts) = None)
  /\ ("Total" ∈ OnlyFields opts \/ OnlyFields opts = [] ->
      TotalResources (BuildSummary HasSupportedProvider resources opts)
      = Some (Z.of_nat (length resources))).
Proof.
  unfold BuildSummary, selected. cbn. split.
  - intros Hin Hnot. destruct (OnlyFields opts) as [|f fs] eqn:Hfs.
    + by apply elem_of_nil in Hin.
    + cbn [length Nat.eqb orb].
      destruct (contains (f :: fs) "Total") eqn:Hc; [|done].
      by apply contains_elem_of in Hc.
  - intros [Hin | ->]; [|done].
    apply contains_elem_of in Hin. rewrite Hin. by rewrite orb_true_r.
Qed.

End SummaryFacts.

(** ** The order on strings used by the sorter

    Go compares strings byte by byte, a proper prefix being smaller; this is
    [String.compare]. *)

Lemma string_ltb_lt (a b : string) :
  String.ltb a b = true <-> OrderedTypeEx.String_as_OT.lt a b.
Proof.
  rewrite <- OrderedTypeEx.String_as_OT.cmp_lt.
  unfold String.ltb, OrderedTypeEx.String_as_OT.cmp.
  destruct (String.compare a b); split; congruence.
Qed.

Lemma string_ltb_irrefl (a : string) : String.ltb a a = false.
Proof.
  unfold String.ltb.
  assert (String.compare a a = Eq) as ->; [|done].
  by apply OrderedTypeEx.String_as_OT.cmp_eq.
Qed.

Lemma string_ltb_trans (a b c : string) :
  String.ltb a b = true -> String.ltb b c = true -> String.ltb a c = true.
Proof.
  rewrite !string_ltb_lt. apply OrderedTypeEx.String_as_OT.lt_trans.
Qed.

Lemma string_ltb_asym (a b : string) :
  String.ltb a b = true -> String.ltb b a = false.
Proof.
  intros Hab. destruct (String.ltb b a) eqn:Hba; [|done].
  pose proof (string_ltb_trans _ _ _ Hab Hba) as Haa.
  by rewrite string_ltb_irrefl in Haa.
Qed.

Lemma string_ltb_total (a b : string) :
  String.ltb a b = false -> String.ltb b a = false -> a = b.
Proof.
  unfold String.ltb. rewrite (String.compare_antisym b a).
  destruct (String.compare a b) eqn:Hc; cbn; try discriminate.
  intros _ _. by apply String.compare_eq_iff.
Qed.

Lemma string_ltb_negtrans (a b c : string) :
  String.ltb a b = false -> String.ltb b c = false -> String.ltb a c = false.
Proof.
  intros Hab Hbc. destruct (String.ltb a c) eqn:Hac; [|done].
  destruct (String.ltb b a) eqn:Hba.
  - by rewrite (string_ltb_trans _ _ _ Hba Hac) in Hbc.
  - rewrite (string_ltb_total a b Hab Hba) in Hac. congruence.
Qed.

(** The comparison of [sortResources] on the pair it looks at. *)
Definition keyLess (k1 k2 : string * string) : bool :=
  if String.eqb k1.1 k2.1 then String.ltb k1.2 k2.2 else String.ltb k1.1 k2.1.

Lemma keyLess_asym (k1 k2 : string * string) :
  keyLess k1 k2 = true -> keyLess k2 k1 = false.
Proof.
  unfold keyLess. rewrite (String.eqb_sym k2.1 k1.1).
  destruct (String.eqb k1.1 k2.1); apply string_ltb_asym.
Qed.

Lemma keyLess_total (k1 k2 : string * string) :
  keyLess k1 k2 = false -> keyLess k2 k1 = false -> k1 = k2.
Proof.
  destruct k1 as [g1 n1], k2 as [g2 n2]. unfold keyLess. cbn.
  rewrite (String.eqb_sym g2 g1).
  destruct (String.eqb g1 g2) eqn:Hg.
  - apply String.eqb_eq in Hg as ->. intros H1 H2.
    by rewrite (string_ltb_total _ _ H1 H2).
  - apply String.eqb_neq in Hg. intros H1 H2.
    by destruct Hg; apply string_ltb_total.
Qed.

Lemma keyLess_negtrans (k1 k2 k3 : string * string) :
  keyLess k1 k2 = false -> keyLess k2 k3 = false -> keyLess k1 k3 = false.
Proof.
  destruct k1 as [g1 n1], k2 as [g2 n2], k3 as [g3 n3]. unfold keyLess. cbn.
  destruct (String.eqb g1 g2) eqn:H12.
  - apply String.eqb_eq in H12 as ->.
    destruct (String.eqb g2 g3) eqn:H23; [apply string_ltb_negtrans | done].
  - destruct (String.eqb g2 g3) eqn:H23.
    + apply String.eqb_eq in H23 as ->. by rewrite H12.
    + intros H1 H2. pose proof (string_ltb_negtrans _ _ _ H1 H2) as H13.
      destruct (String.eqb g1 g3) eqn:Hg; [|done].
      apply String.eqb_eq in Hg as ->.
      apply String.eqb_neq in H12. by destruct H12; apply string_ltb_total.
Qed.

Lemma NoDup_fmap_inj_on {A B : Type} (f : A -> B) (l : list A) (x y : A) :
  NoDup (f <$> l) -> x ∈ l -> y ∈ l -> f x = f y -> x = y.
Proof.
  induction l as [|a l IH]; csimpl; [by intros _ ?%elem_of_nil|].
  rewrite NoDup_cons. intros [Ha Hl] Hx Hy Hxy.
  apply elem_of_cons in Hx as [->|Hx], Hy as [->|Hy]; [done| | |by apply IH].
  - destruct Ha. rewrite Hxy. by apply list_elem_of_fmap_2.
  - destruct Ha. rewrite <- Hxy. by apply list_elem_of_fmap_2.
Qed.

Lemma StronglySorted_lookup {A : Type} (R : relation A) (l : list A)
      (i j : nat) (a b : A) :
  StronglySorted R l -> (i < j)%nat -> l !! i = Some a -> l !! j = Some b -> R a b.
Proof.
  intros Hs. revert i j. induction Hs as [|x l Hs IH Hx]; intros i j Hij Ha Hb.
  - by rewrite lookup_nil in Ha.
  - destruct j as [|j]; [lia|]. destruct i as [|i]; cbn in Ha, Hb.
    + injection Ha as ->. rewrite Forall_forall in Hx.
      apply Hx. by eapply list_elem_of_lookup_2.
    + apply (IH i j); [lia|done..].
Qed.

(** ** The resource sorter *)

Section SortFacts.
Context {D : Type} `{SliceSorter}.

(** What the sorter compares: the value of the group key in the metadata
    (nothing when the group key is empty) and the name. *)
Definition groupValue (groupKey : string) (r : Resource D) : string :=
  if String.eqb groupKey "" then "" else metadata_at r groupKey.

Definition sortKey (groupKey : string) (r : Resource D) : string * string :=
  (groupValue groupKey r, Name r).

(** [a] may stand before [b] in a sorted list. *)
Definition inOrder (groupKey : string) (a b : Resource D) : Prop :=
  resourceLess groupKey b a = false.

Lemma resourceLess_keyLess (groupKey : string) (a b : Resource D) :
  resourceLess groupKey a b = keyLess (sortKey groupKey a) (sortKey groupKey b).
Proof.
  unfold resourceLess, keyLess, sortKey, groupValue. cbn.
  by destruct (String.eqb groupKey "").
Qed.

Lemma resourceLess_StrictWeak (groupKey : string) :
  StrictWeak (resourceLess (D:=D) groupKey).
Proof.
  split; intros *; rewrite !resourceLess_keyLess.
  - apply keyLess_asym.
  - apply keyLess_negtrans.
Qed.

Lemma sortResources_perm (l : list (Resource D)) (groupKey : string) :
  sortResources l groupKey ≡ₚ l.
Proof. apply sort_Slice_perm. Qed.

Lemma sortResources_sorted (l : list (Resource D)) (groupKey : string) :
  StronglySorted (inOrder groupKey) (sortResources l groupKey).
Proof. apply sort_Slice_sorted, resourceLess_StrictWeak. Qed.

Lemma sortResources_sorted_by_key (l : list (Resource D)) (groupKey : string) :
  StronglySorted
    (fun a b => keyLess (sortKey groupKey b) (sortKey groupKey a) = false)
    (sortResources l groupKey).
Proof.
  pose proof (sortResources_sorted l groupKey) as Hs.
  induction Hs as [|x out Hs IH Hx]; constructor; [exact IH|].
  eapply Forall_impl; [exact Hx|].
  intros b Hb. unfold inOrder in Hb. by rewrite resourceLess_keyLess in Hb.
Qed.

Lemma sortResources_keys_sorted (l : list (Resource D)) (groupKey : string) :
  StronglySorted (fun k1 k2 => keyLess k2 k1 = false)
    (sortKey groupKey <$> sortResources l groupKey).
Proof.
  eapply StronglySorted_fmap; [|apply sortResources_sorted].
  intros a b. unfold inOrder. by rewrite resourceLess_keyLess.
Qed.

Lemma sortResources_keys_perm (l l' : list (Resource D)) (groupKey : string) :
  l ≡ₚ l' ->
  sortKey groupKey <$> sortResources l' groupKey
  = sortKey groupKey <$> sortResources l groupKey.
Proof.
  intros Hperm. apply (StronglySorted_unique_strong (fun k1 k2 => keyLess k2 k1 = false)).
  - intros k1 k2 _ _ H12 H21. by apply keyLess_total.
  - apply sortResources_keys_sorted.
  - apply sortResources_keys_sorted.
  - by rewrite !sortResources_perm, Hperm.
Qed.

Lemma sortResources_distinct_perm (l l' : list (Resource D)) (groupKey : string) :
  NoDup (sortKey groupKey <$> l) ->
  l ≡ₚ l' ->
  sortResources l' groupKey = sortResources l groupKey.
Proof.
  intros Hnd Hperm. apply (StronglySorted_unique_strong (inOrder groupKey)).
  - intros a b Ha Hb Hab Hba.
    rewrite sortResources_perm, <- Hperm in Ha. rewrite sortResources_perm in Hb.
    apply (NoDup_fmap_inj_on (sortKey groupKey) l); [done..|].
    unfold inOrder in Hab, Hba. rewrite resourceLess_keyLess in Hab, Hba.
    by apply keyLess_total.
  - apply sortResources_sorted.
  - apply sortResources_sorted.
  - by rewrite !sortResources_perm, Hperm.
Qed.

(** C6 (as the code has it). For every resource list and group key, the
    sorted list is a permutation of the input in which no resource
    precedes one with a smaller pair (group-key value, name), the pairs
    being compared by group-key value first and by name among equal
    group-key values: along the list the group-key values never decrease,
    and two resources with equal group-key value stand in name order. The
    sequence of pairs (group-key value, name) of the output is the same for
    every ordering of the input, and sorting twice gives the same sequence
    as sorting once. When no two resources of the input share their pair,
    the output itself is the same for every ordering of the input and
    sorting is idempotent. *)
Theorem sortResources_order (l : list (Resource D)) (groupKey : string) :
  sortResources l groupKey ≡ₚ l
  /\ StronglySorted
       (fun a b => keyLess (sortKey groupKey b) (sortKey groupKey a) = false)
       (sortResources l groupKey)
  /\ (forall (i j : nat) (a b : Resource D),
         (i < j)%nat ->
         sortResources l groupKey !! i = Some a ->
         sortResources l groupKey !! j = Some b ->
         String.ltb (groupValue groupKey b) (groupValue groupKey a) = false
         /\ (groupValue groupKey a = groupValue groupKey b ->
             String.ltb (Name b) (Name a) = false))
  /\ (forall l' : list (Resource D),
         l ≡ₚ l' ->
         sortKey groupKey <$> sortResources l' groupKey
         = sortKey groupKey <$> sortResources l groupKey)
  /\ sortKey groupKey <$> sortResources (sortResources l groupKey) groupKey
     = sortKey groupKey <$> sortResources l groupKey
  /\ (NoDup (sortKey groupKey <$> l) ->
      (forall l' : list (Resource D),
          l ≡ₚ l' -> sortResources l' groupKey = sortResources l groupKey)
      /\ sortResources (sortResources l groupKey) groupKey = sortResources l groupKey).
Proof.
  split; [apply sortResources_perm|].
  split; [apply sortResources_sorted_by_key|].
  split.
  { intros i j a b Hij Ha Hb.
    pose proof (StronglySorted_lookup _ _ i j a b
                  (sortResources_sorted_by_key l groupKey) Hij Ha Hb) as Hab.
    unfold keyLess, sortKey in Hab. cbn [fst snd] in Hab.
    destruct (String.eqb_spec (groupValue groupKey b) (groupValue groupKey a))
      as [Heq|Hne].
    - split; [rewrite Heq; apply string_ltb_irrefl | by intros _].
    - split; [exact Hab | intros Hg; by destruct Hne]. }
  split; [intros l'; apply sortResources_keys_perm|].
  split; [apply sortResources_keys_perm; symmetry; apply sortResources_perm|].
  intros Hnd. split.
  - intros l'. by apply sortResources_distinct_perm.
  - apply sortResources_distinct_perm; [done|]. symmetry. apply sortResources_perm.
Qed.

End SortFacts.

(** ** The breakdown builder and the report assembler *)

Section ReportFacts.
Context {M D : Type} `{Decimal D} `{SliceSorter}.
Variable HasSupportedProvider : string -> bool.

Lemma collectResources_filter (l : list (schema.Resource D)) :
  collectResources l
  = outputResource <$> filter (fun r => schema.IsSkipped r = false) l.
Proof.
  induction l as [|r l IH]; [done|]. cbn [collectResources].
  rewrite filter_cons. destruct (schema.IsSkipped r) eqn:Hsk.
  - by rewrite decide_False.
  - rewrite decide_True by done. csimpl. by rewrite IH.
Qed.

Lemma collectResources_skip (l1 l2 : list (schema.Resource D)) (r : schema.Resource D) :
  schema.IsSkipped r = true ->
  collectResources (l1 ++ r :: l2)%list = collectResources (l1 ++ l2)%list.
Proof.
  intros Hsk. induction l1 as [|x l1 IH]; cbn [collectResources app].
  - by rewrite Hsk.
  - by rewrite IH.
Qed.

Lemma outputBreakdown_resources (l : list (schema.Resource D)) :
  Resources (outputBreakdown l)
  ≡ₚ outputResource <$> filter (fun r => schema.IsSkipped r = false) l.
Proof.
  unfold outputBreakdown.
  destruct (calculateTotalCosts _) as [h m]. cbn [Resources].
  by rewrite sortResources_perm, collectResources_filter.
Qed.

(** C3 (as the code has it). A resource marked skipped never shows in the
    breakdown: the breakdown, its resource list and its totals are those
    of the input without that resource. In the summary it adds nothing to
    [SupportedResourceCounts] and [TotalSupportedResources]. When it is
    not marked no-price and it passes the provider filter, it adds exactly
    one to the count of its resource type in [UnsupportedResourceCounts]
    and exactly one to [TotalUnsupportedResources], and nothing to
    [TotalNoPriceResources]. When it is marked no-price and it passes the
    provider filter, it adds exactly one to [TotalNoPriceResources] instead
    and nothing to the unsupported counts. When the provider filter
    excludes it, it adds nothing to any of the three buckets. In every case
    it adds one to [TotalResources]. All this for the fields that are
    populated. *)
Theorem skipped_resource_accounting
        (l1 l2 : list (schema.Resource D)) (r : schema.Resource D)
        (opts : SummaryOptions) :
  schema.IsSkipped r = true ->
  let present := (l1 ++ r :: l2)%list in
  let absent := (l1 ++ l2)%list in
  outputBreakdown present = outputBreakdown absent
  /\ Resources (outputBreakdown present)
     ≡ₚ outputResource <$> filter (fun x => schema.IsSkipped x = false) absent
  /\ SupportedResourceCounts (BuildSummary HasSupportedProvider present opts)
     = SupportedResourceCounts (BuildSummary HasSupportedProvider absent opts)
  /\ TotalSupportedResources (BuildSummary HasSupportedProvider present opts)
     = TotalSupportedResources (BuildSummary HasSupportedProvider absent opts)
  /\ (schema.NoPrice r = false ->
      passesProviderFilter HasSupportedProvider opts r = true ->
      UnsupportedResourceCounts (BuildSummary HasSupportedProvider present opts)
      = (fun counts =>
           <[schema.ResourceType r :=
               int_add (count_at counts (schema.ResourceType r)) 1]> counts)
          <$> UnsupportedResourceCounts (BuildSummary HasSupportedProvider absent opts)
      /\ TotalUnsupportedResources (BuildSummary HasSupportedProvider present opts)
         = (fun n => int_add n 1)
             <$> TotalUnsupportedResources
                   (BuildSummary HasSupportedProvider absent opts)
      /\ TotalNoPriceResources (BuildSummary HasSupportedProvider present opts)
         = TotalNoPriceResources (BuildSummary HasSupportedProvider absent opts))
  /\ (schema.NoPrice r = true ->
      passesProviderFilter HasSupportedProvider opts r = true ->
      TotalNoPriceResources (BuildSummary HasSupportedProvider present opts)
      = (fun n => int_add n 1)
          <$> TotalNoPriceResources (BuildSummary HasSupportedProvider absent opts)
      /\ UnsupportedResourceCounts (BuildSummary HasSupportedProvider present opts)
         = UnsupportedResourceCounts (BuildSummary HasSupportedProvider absent opts)
      /\ TotalUnsupportedResources (BuildSummary HasSupportedProvider present opts)
         = TotalUnsupportedResources (BuildSummary HasSupportedProvider absent opts))
  /\ (passesProviderFilter HasSupportedProvider opts r = false ->
      UnsupportedResourceCounts (BuildSummary HasSupportedProvider present opts)
      = UnsupportedResourceCounts (BuildSummary HasSupportedProvider absent opts)
      /\ TotalUnsupportedResources (BuildSummary HasSupportedProvider present opts)
         = TotalUnsupportedResources (BuildSummary HasSupportedProvider absent opts)
      /\ TotalNoPriceResources (BuildSummary HasSupportedProvider present opts)
         = TotalNoPriceResources (BuildSummary HasSupportedProvider absent opts))
  /\ TotalResources (BuildSummary HasSupportedProvider present opts)
     = (fun n => n + 1)
         <$> TotalResources (BuildSummary HasSupportedProvider absent opts).
Proof.
  intros Hsk present absent.
  assert (outputBreakdown present = outputBreakdown absent) as Hbd.
  { unfold outputBreakdown, present, absent. by rewrite collectResources_skip. }
  split; [exact Hbd|].
  split; [rewrite Hbd; apply outputBreakdown_resources|].
  assert (Z.of_nat (length present) = Z.of_nat (length absent) + 1) as Hlen.
  { unfold present, absent. rewrite !length_app. cbn [length]. lia. }
  unfold BuildSummary. cbn. rewrite Hlen. unfold present, absent.
  rewrite classify_move.
  set (c := fold_left (classify HasSupportedProvider opts) (l1 ++ l2)%list initCounters).
  destruct (classify_skipped HasSupportedProvider opts c r Hsk) as [Hs1 Hs2].
  split; [by rewrite Hs1|]. split; [by rewrite Hs2|].
  split; [|split; [|split; [|by destruct (selected opts "Total")]]].
  - intros Hnp Hpass.
    destruct (classify_unsupported HasSupportedProvider opts c r Hsk Hnp Hpass)
      as [Hu1 Hu2].
    rewrite Hu1, Hu2, incrCount_insert,
      (classify_unsupported_noPrice HasSupportedProvider opts c r Hnp).
    by destruct (selected opts "UnsupportedResourceCounts"),
      (selected opts "TotalUnsupportedResources").
  - intros Hnp Hpass.
    destruct (classify_noPrice HasSupportedProvider opts c r Hnp Hpass)
      as (Hn1 & Hn2 & Hn3).
    rewrite Hn1, Hn2, Hn3.
    by destruct (selected opts "TotalNoPriceResources").
  - intros Hpass.
    by rewrite (classify_filtered HasSupportedProvider opts c r Hpass).
Qed.

(** The total of a list of optional totals under the nil-vs-zero rule:
    nil when none is present, otherwise the sum of the present ones. *)
Definition nilAwareSum (totals : list (option D)) : option D :=
  match omap id totals with
  | [] => None
  | costs => Some (decimalSum costs)
  end.

Definition breakdownHourly (b : option (Breakdown D)) : option D :=
  b ≫= TotalHourlyCost.
Definition breakdownMonthly (b : option (Breakdown D)) : option D :=
  b ≫= TotalMonthlyCost.

(** The breakdowns of the current resources, one per project. *)
Definition currentBreakdowns (projects : list (schema.Project M D))
  : list (option (Breakdown D)) :=
  (fun p => Some (outputBreakdown (schema.Resources p))) <$> projects.

Lemma addToTotal_fold (totals : list (option D)) (acc : option D) :
  fold_left addToTotal totals acc
  = match acc with
    | Some t => Some (fold_left Add (omap id totals) t)
    | None => nilAwareSum totals
    end.
Proof.
  revert acc. induction totals as [|t totals IH]; intros acc.
  - by destruct acc.
  - cbn [fold_left]. rewrite IH. unfold nilAwareSum, decimalSum.
    by destruct acc as [a|], t as [c|]; cbn.
Qed.

Lemma rollTotals_fold (bds : list (option (Breakdown D))) (h m : option D) :
  fold_left rollTotals bds (h, m)
  = (fold_left addToTotal (breakdownHourly <$> bds) h,
     fold_left addToTotal (breakdownMonthly <$> bds) m).
Proof.
  revert h m. induction bds as [|b bds IH]; intros h m; [done|].
  cbn [fold_left]. destruct b as [b|]; cbn [rollTotals]; rewrite IH; csimpl.
  - done.
  - by destruct h, m.
Qed.

Lemma projectStep_fold (projects : list (schema.Project M D)) (st : assembly) :
  let st' := fold_left (projectStep HasSupportedProvider) projects st in
  (totalHourlyCost st', totalMonthlyCost st')
  = fold_left rollTotals (currentBreakdowns projects)
      (totalHourlyCost st, totalMonthlyCost st)
  /\ outResources st'
     = (outResources st
          ++ concat ((fun p => Resources (outputBreakdown (schema.Resources p)))
                       <$> projects))%list.
Proof.
  revert st. induction projects as [|p projects IH]; intros st.
  - cbn. by rewrite app_nil_r.
  - cbn [fold_left]. destruct (IH (projectStep HasSupportedProvider st p)) as [IH1 IH2].
    cbn zeta. rewrite IH1, IH2. csimpl. split.
    + unfold projectStep. cbn [rollTotals].
      by destruct (schema.HasDiff p).
    + unfold projectStep. cbn [rollTotals].
      destruct (schema.HasDiff p); cbn [outResources]; by rewrite <- app_assoc.
Qed.

Lemma nilAwareSum_None (totals : list (option D)) :
  nilAwareSum totals = None <-> Forall (fun t => t = None) totals.
Proof.
  unfold nilAwareSum. induction totals as [|t totals IH]; cbn.
  - split; [constructor | done].
  - destruct t as [c|]; cbn.
    + split; [done | by inversion 1].
    + rewrite Forall_cons. rewrite <- IH.
      destruct (omap id totals); split; try done; by intros [_ ?].
Qed.

Lemma nilAwareSum_skip_nil (totals1 totals2 : list (option D)) :
  nilAwareSum (totals1 ++ None :: totals2)%list = nilAwareSum (totals1 ++ totals2)%list.
Proof. unfold nilAwareSum. by rewrite !omap_app. Qed.

(** C4. For every list of projects the report-wide totals follow the
    nil-vs-zero accumulation rule over the totals of the projects'
    current breakdowns: the loop of [ToOutputFormat] yields nil while no
    breakdown total is present, a nil total adds nothing and does not turn
    the result into nil, and the first present total is added to a
    running total set to [Zero]. For two projects, one with a nil monthly
    total and one with monthly total [ten], in either order, the
    report-wide monthly total is present and is [Zero] plus [ten]. *)
Theorem ToOutputFormat_totals_rule :
  (forall (now : Z) (projects : list (schema.Project M D)),
      rootTotalHourlyCost (ToOutputFormat HasSupportedProvider now projects)
      = nilAwareSum (breakdownHourly <$> currentBreakdowns projects)
      /\ rootTotalMonthlyCost (ToOutputFormat HasSupportedProvider now projects)
         = nilAwareSum (breakdownMonthly <$> currentBreakdowns projects))
  /\ (forall bds : list (option (Breakdown D)),
         fold_left rollTotals bds (None, None)
         = (nilAwareSum (breakdownHourly <$> bds),
            nilAwareSum (breakdownMonthly <$> bds)))
  /\ (forall totals : list (option D),
         nilAwareSum totals = None <-> Forall (fun t => t = None) totals)
  /\ (forall totals1 totals2 : list (option D),
         nilAwareSum (totals1 ++ None :: totals2)%list
         = nilAwareSum (totals1 ++ totals2)%list)
  /\ (forall (totals : list (option D)) (c : D),
         Forall (fun t => t = None) totals ->
         nilAwareSum (totals ++ [Some c])%list = Some (Add Zero c))
  /\ (forall (rs1 rs2 : list (Resource D)) (h1 h2 : option D) (ten : D),
         let nilMonthly := Some (mkBreakdown rs1 h1 None) in
         let tenMonthly := Some (mkBreakdown rs2 h2 (Some ten)) in
         snd (fold_left rollTotals [nilMonthly; tenMonthly] (None, None))
         = Some (Add Zero ten)
         /\ snd (fold_left rollTotals [tenMonthly; nilMonthly] (None, None))
            = Some (Add Zero ten)).
Proof.
  assert (Hroll : forall bds : list (option (Breakdown D)),
             fold_left rollTotals bds (None, None)
             = (nilAwareSum (breakdownHourly <$> bds),
                nilAwareSum (breakdownMonthly <$> bds))).
  { intros bds. by rewrite rollTotals_fold, !addToTotal_fold. }
  split.
  { intros now projects. unfold ToOutputFormat.
    cbn [rootTotalHourlyCost rootTotalMonthlyCost].
    destruct (projectStep_fold projects (mkAssembly None None [] [])) as [Ht _].
    cbn zeta in Ht. cbn [totalHourlyCost totalMonthlyCost] in Ht.
    rewrite Hroll in Ht. injection Ht as Hh Hm. by rewrite Hh, Hm. }
  split; [exact Hroll|].
  split; [apply nilAwareSum_None|].
  split; [apply nilAwareSum_skip_nil|].
  split; [|by intros].
  intros totals c Hnil. unfold nilAwareSum. rewrite omap_app.
  apply nilAwareSum_None in Hnil. unfold nilAwareSum in Hnil.
  by destruct (omap id totals).
Qed.

(** C5. For every list of projects, the flat [Resources] list of the
    report is the concatenation of the resource lists of the projects'
    current breakdowns, sorted again with the empty group key: a
    permutation of that concatenation in which no resource precedes one
    with a smaller name. *)
Theorem ToOutputFormat_flat_resources
        (now : Z) (projects : list (schema.Project M D)) :
  let flat :=
    concat ((fun p => Resources (outputBreakdown (schema.Resources p))) <$> projects) in
  let out := rootResources (ToOutputFormat HasSupportedProvider now projects) in
  out = sortResources flat ""
  /\ out ≡ₚ flat
  /\ StronglySorted (fun a b => String.ltb (Name b) (Name a) = false) out.
Proof.
  intros flat out.
  assert (out = sortResources flat "") as ->.
  { unfold out, ToOutputFormat. cbn [rootResources].
    destruct (projectStep_fold projects (mkAssembly None None [] [])) as [_ Hr].
    cbn zeta in Hr. by rewrite Hr. }
  split; [done|]. split; [apply sortResources_perm|].
  exact (sortResources_sorted flat "").
Qed.

End ReportFacts.

(** ** The summary merger *)

(** The mathematical sum of a list of integers. *)
Definition sumZ (vs : list Z) : Z := foldr Z.add 0 vs.

(** The merge of the present values of one scalar field: nil when there is
    none, otherwise their sum as a Go [int]. *)
Definition mergedScalar (vs : list Z) : option Z :=
  match vs with
  | [] => None
  | _ => Some (wrap (sumZ vs))
  end.

(** The values of a field in the summaries that are not nil and in which the
    field is not nil, in list order. *)
Definition presentFields {A : Type} (f : Summary -> option A)
           (summaries : list (option Summary)) : list A :=
  omap (fun o => o ≫= f) summaries.

(** The merged count of key [k] over the present maps of one map field: the
    key is absent when no map holds it, otherwise the counts of the maps that
    hold it are added. *)
Definition mergedAt (maps : list (gmap string Z)) (k : string) : option Z :=
  mergedScalar (omap (fun m : gmap string Z => m !! k) maps).

Definition scalarFields : list (Summary -> option Z) :=
  [TotalSupportedResources; TotalUnsupportedResources;
   TotalNoPriceResources; TotalResources].

Definition mapFields : list (Summary -> option (gmap string Z)) :=
  [SupportedResourceCounts; UnsupportedResourceCounts].

Definition countsInRange (m : gmap string Z) : Prop :=
  forall k v, m !! k = Some v -> in_int_range v.

(** Every count of the summary is a Go [int]. *)
Definition summaryInRange (s : Summary) : Prop :=
  Forall (fun f => forall v, f s = Some v -> in_int_range v) scalarFields
  /\ Forall (fun g => forall m, g s = Some m -> countsInRange m) mapFields.

Lemma sumZ_app (vs1 vs2 : list Z) : sumZ (vs1 ++ vs2)%list = sumZ vs1 + sumZ vs2.
Proof. unfold sumZ. induction vs1 as [|v vs1 IH]; cbn; [done|]. rewrite IH. lia. Qed.

Lemma mergedScalar_snoc (vs : list Z) (v : Z) :
  addIntPtrs (mergedScalar vs) (Some v) = mergedScalar (vs ++ [v])%list.
Proof.
  destruct vs as [|x vs]; cbn [mergedScalar app addIntPtrs].
  - unfold int_add. cbn. do 2 f_equal. lia.
  - change (x :: (vs ++ [v])%list) with ((x :: vs) ++ [v])%list.
    unfold int_add. rewrite wrap_add_l, sumZ_app. cbn. do 2 f_equal. lia.
Qed.

Lemma mergedScalar_nil_r (vs : list Z) :
  addIntPtrs (mergedScalar vs) None = mergedScalar vs.
Proof.
  destruct vs as [|x vs]; cbn [mergedScalar addIntPtrs]; [done|].
  unfold int_add. by rewrite Z.add_0_r, wrap_idem.
Qed.

Lemma presentFields_snoc {A : Type} (f : Summary -> option A)
      (summaries : list (option Summary)) (o : option Summary) :
  presentFields f (summaries ++ [o])%list
  = (presentFields f summaries ++ option_list (o ≫= f))%list.
Proof. unfold presentFields. rewrite omap_app. cbn. by destruct (o ≫= f). Qed.

Lemma presentFields_nil {A : Type} (f : Summary -> option A)
      (summaries : list (option Summary)) :
  presentFields f summaries = [] <-> forall s, Some s ∈ summaries -> f s = None.
Proof.
  unfold presentFields. induction summaries as [|o summaries IH]; cbn.
  - split; [by intros _ s ?%elem_of_nil | done].
  - destruct o as [s|]; cbn.
    + destruct (f s) eqn:Hf.
      * split; [done|]. intros Hall. specialize (Hall s (list_elem_of_here _ _)). congruence.
      * rewrite IH. split.
        -- intros Hall s' [[= ->]|?]%elem_of_cons; by auto.
        -- intros Hall s' Hs'. apply Hall. by right.
    + rewrite IH. split.
      * intros Hall s' [?|?]%elem_of_cons; by auto.
      * intros Hall s' Hs'. apply Hall. by right.
Qed.

Section MergeFacts.
Context `{MapRange}.

Lemma rangeOrder_NoDup {V : Type} (m : gmap string V) : NoDup ((rangeOrder m).*1).
Proof. rewrite rangeOrder_perm. apply NoDup_fst_map_to_list. Qed.

Lemma rangeOrder_list_to_map {V : Type} (m : gmap string V) :
  list_to_map (rangeOrder m) = m.
Proof.
  rewrite <- (list_to_map_to_list m) at 2.
  apply list_to_map_proper; [apply rangeOrder_NoDup | apply rangeOrder_perm].
Qed.

Lemma copy_loop_lookup (l : list (string * Z)) (res : gmap string Z) (k : string) :
  NoDup (l.*1) ->
  fold_left (fun res kv => <[kv.1 := kv.2]> res) l res !! k
  = match (list_to_map l : gmap string Z) !! k with
    | Some v => Some v
    | None => res !! k
    end.
Proof.
  revert res. induction l as [|[k1 v1] l IH]; intros res; csimpl; [done|].
  rewrite NoDup_cons. intros [Hk1 Hnd]. rewrite IH by done.
  destruct (decide (k = k1)) as [->|Hne].
  - apply not_elem_of_list_to_map_1 in Hk1. rewrite Hk1.
    by rewrite !lookup_insert_eq.
  - rewrite !lookup_insert_ne by done. by destruct (list_to_map l !! k).
Qed.

Lemma add_loop_lookup (l : list (string * Z)) (res : gmap string Z) (k : string) :
  NoDup (l.*1) ->
  fold_left (fun res kv => <[kv.1 := int_add (count_at res kv.1) kv.2]> res) l res !! k
  = match (list_to_map l : gmap string Z) !! k with
    | Some v => Some (int_add (count_at res k) v)
    | None => res !! k
    end.
Proof.
  revert res. induction l as [|[k1 v1] l IH]; intros res; csimpl; [done|].
  rewrite NoDup_cons. intros [Hk1 Hnd]. rewrite IH by done.
  destruct (decide (k = k1)) as [->|Hne].
  - apply not_elem_of_list_to_map_1 in Hk1. rewrite Hk1.
    by rewrite !lookup_insert_eq.
  - unfold count_at. rewrite !lookup_insert_ne by done.
    by destruct (list_to_map l !! k).
Qed.

Lemma mergeCounts_None (c1 c2 : option (gmap string Z)) :
  mergeCounts c1 c2 = None <-> c1 = None /\ c2 = None.
Proof. destruct c1, c2; cbn; split; by try intros [??]. Qed.

Lemma mergeCounts_lookup (c1 c2 : option (gmap string Z)) (res : gmap string Z)
      (k : string) :
  mergeCounts c1 c2 = Some res ->
  res !! k
  = match c2 ≫= (fun m => m !! k) with
    | Some v => Some (int_add (default 0 (c1 ≫= (fun m => m !! k))) v)
    | None => c1 ≫= (fun m => m !! k)
    end.
Proof.
  destruct c1 as [m1|], c2 as [m2|]; cbn; [| | |done]; intros [= <-].
  - rewrite add_loop_lookup by apply rangeOrder_NoDup.
    unfold count_at. rewrite copy_loop_lookup by apply rangeOrder_NoDup.
    rewrite !rangeOrder_list_to_map, lookup_empty.
    by destruct (m1 !! k), (m2 !! k).
  - rewrite copy_loop_lookup by apply rangeOrder_NoDup.
    rewrite rangeOrder_list_to_map, lookup_empty. by destruct (m1 !! k).
  - rewrite add_loop_lookup by apply rangeOrder_NoDup.
    unfold count_at. rewrite rangeOrder_list_to_map, lookup_empty.
    by destruct (m2 !! k).
Qed.

Lemma addIntPtrs_None_l (i : option Z) :
  (forall v, i = Some v -> in_int_range v) -> addIntPtrs None i = i.
Proof.
  destruct i as [v|]; cbn; [|done]. intros Hv.
  by rewrite int_add_0_l by auto.
Qed.

Lemma mergeCounts_None_l (c : option (gmap string Z)) :
  (forall m, c = Some m -> countsInRange m) -> mergeCounts None c = c.
Proof.
  destruct c as [m|]; [|done]. intros Hm.
  destruct (mergeCounts None (Some m)) as [res|] eqn:Hres;
    [|by apply mergeCounts_None in Hres as [_ ?]].
  f_equal. apply map_eq. intros k.
  rewrite (mergeCounts_lookup _ _ _ k Hres). cbn.
  destruct (m !! k) as [v|] eqn:Hk; [|done].
  by rewrite int_add_0_l by (by eapply Hm).
Qed.

Lemma mergeCounts_disjoint (ma mb : gmap string Z) :
  ma ##ₘ mb -> countsInRange mb ->
  mergeCounts (Some ma) (Some mb) = Some (ma ∪ mb).
Proof.
  intros Hdisj Hb.
  destruct (mergeCounts (Some ma) (Some mb)) as [res|] eqn:Hres;
    [|by apply mergeCounts_None in Hres as [? _]].
  f_equal. apply map_eq. intros k.
  rewrite (mergeCounts_lookup _ _ _ k Hres). cbn.
  destruct (mb !! k) as [v|] eqn:Hk.
  - assert (ma !! k = None) as Ha by (by eapply map_disjoint_Some_r).
    rewrite Ha. cbn. rewrite int_add_0_l by (by eapply Hb).
    symmetry. by apply lookup_union_Some_raw; right.
  - symmetry. by rewrite lookup_union_l.
Qed.

(** The fields of [Summary], by the way [MergeSummaries] combines them. *)
Definition mergedByAddIntPtrs (f : Summary -> option Z) : Prop :=
  f emptySummary = None
  /\ forall merged s, f (mergeStep merged (Some s)) = addIntPtrs (f merged) (f s).

Definition mergedByMergeCounts (g : Summary -> option (gmap string Z)) : Prop :=
  g emptySummary = None
  /\ forall merged s, g (mergeStep merged (Some s)) = mergeCounts (g merged) (g s).

Lemma scalarFields_merged : Forall mergedByAddIntPtrs scalarFields.
Proof. repeat constructor. Qed.

Lemma mapFields_merged : Forall mergedByMergeCounts mapFields.
Proof. repeat constructor. Qed.

Lemma MergeSummaries_snoc (summaries : list (option Summary)) (o : option Summary) :
  MergeSummaries (summaries ++ [o])%list = mergeStep (MergeSummaries summaries) o.
Proof. unfold MergeSummaries. by rewrite fold_left_app. Qed.

Lemma MergeSummaries_scalar (f : Summary -> option Z)
      (summaries : list (option Summary)) :
  mergedByAddIntPtrs f ->
  f (MergeSummaries summaries) = mergedScalar (presentFields f summaries).
Proof.
  intros [Hempty Hstep].
  induction summaries as [|o summaries IH] using rev_ind; [exact Hempty|].
  rewrite MergeSummaries_snoc, presentFields_snoc.
  destruct o as [s|].
  - change (Some s ≫= f) with (f s).
    rewrite Hstep, IH. destruct (f s) as [v|]; cbn [option_list].
    + apply mergedScalar_snoc.
    + by rewrite app_nil_r, mergedScalar_nil_r.
  - cbn. by rewrite app_nil_r.
Qed.

Lemma MergeSummaries_map (g : Summary -> option (gmap string Z))
      (summaries : list (option Summary)) :
  mergedByMergeCounts g ->
  (g (MergeSummaries summaries) = None <-> presentFields g summaries = [])
  /\ (forall k, g (MergeSummaries summaries) ≫= (fun m => m !! k)
                = mergedAt (presentFields g summaries) k).
Proof.
  intros [Hempty Hstep].
  induction summaries as [|o summaries [IHnil IHat]] using rev_ind.
  { change (MergeSummaries []) with emptySummary. by rewrite Hempty. }
  rewrite MergeSummaries_snoc, presentFields_snoc.
  destruct o as [s|]; [|cbn; by rewrite app_nil_r].
  change (Some s ≫= g) with (g s). rewrite Hstep. split.
  - rewrite mergeCounts_None, IHnil.
    destruct (g s); cbn [option_list]; split.
    + by intros [_ ?].
    + by intros [_ ?]%app_eq_nil.
    + intros [-> _]. done.
    + rewrite app_nil_r. by intros ->.
  - intros k.
    destruct (mergeCounts (g (MergeSummaries summaries)) (g s)) as [res|] eqn:Hres.
    + cbn. rewrite (mergeCounts_lookup _ _ _ k Hres), IHat.
      unfold mergedAt. rewrite omap_app.
      destruct (g s) as [m2|]; cbn.
      * destruct (m2 !! k) as [v|]; cbn.
        -- rewrite <- mergedScalar_snoc.
           by destruct (mergedScalar (omap (fun m : gmap string Z => m !! k)
                                           (presentFields g summaries))).
        -- by rewrite app_nil_r.
      * by rewrite app_nil_r.
    + apply mergeCounts_None in Hres as [Hm Hs]. rewrite Hs. cbn.
      rewrite app_nil_r. apply IHnil in Hm. by rewrite Hm.
Qed.

Lemma MergeSummaries_nils (summaries : list (option Summary)) :
  (forall o, o ∈ summaries -> o = None) -> MergeSummaries summaries = emptySummary.
Proof.
  induction summaries as [|o summaries IH] using rev_ind; [done|].
  intros Hall. rewrite MergeSummaries_snoc.
  rewrite (Hall o) by (apply elem_of_app; right; left).
  cbn. apply IH. intros o' Ho'. apply Hall, elem_of_app. by left.
Qed.

Lemma MergeSummaries_singleton (s : Summary) :
  summaryInRange s -> MergeSummaries [Some s] = s.
Proof.
  intros [Hscalars Hmaps]. unfold scalarFields, mapFields in *.
  repeat match goal with
         | Hf : Forall _ (_ :: _) |- _ => apply Forall_cons in Hf as [? Hf]
         end.
  destruct s. unfold MergeSummaries. cbn -[mergeCounts addIntPtrs] in *.
  by rewrite !mergeCounts_None_l, !addIntPtrs_None_l.
Qed.

Lemma mergedAt_is_Some (maps : list (gmap string Z)) (k : string) :
  is_Some (mergedAt maps k) <-> exists m, m ∈ maps /\ is_Some (m !! k).
Proof.
  unfold mergedAt. induction maps as [|m maps IH]; cbn.
  - split; [by intros [? ?] | by intros (? & ?%elem_of_nil & _)].
  - destruct (m !! k) as [v|] eqn:Hk; cbn.
    + split; [|by eauto]. intros _. exists m. split; [left | by rewrite Hk].
    + rewrite IH. split.
      * intros (m' & ? & ?). exists m'. split; [by right | done].
      * intros (m' & [->|?]%elem_of_cons & Hm'); [|by eauto].
        rewrite Hk in Hm'. by destruct Hm'.
Qed.

Lemma MergeSummaries_disjoint (g : Summary -> option (gmap string Z))
      (a b : Summary) (ma mb : gmap string Z) :
  mergedByMergeCounts g ->
  g a = Some ma -> g b = Some mb ->
  ma ##ₘ mb -> countsInRange ma -> countsInRange mb ->
  g (MergeSummaries [Some a; Some b]) = Some (ma ∪ mb).
Proof.
  intros [Hempty Hstep] Ha Hb Hdisj Hra Hrb.
  change (MergeSummaries [Some a; Some b])
    with (mergeStep (mergeStep emptySummary (Some a)) (Some b)).
  rewrite !Hstep, Hempty, Ha, Hb.
  rewrite mergeCounts_None_l by (by intros ? [= <-]).
  by apply mergeCounts_disjoint.
Qed.

(** C2. For every sequence of summaries, nil entries being skipped: a
    field of the merged summary is nil exactly when it is nil in every
    non-nil input. Otherwise a scalar field is the sum (as a Go [int]) of
    the values present in the inputs, which is their sum in [Z] whenever
    that fits a Go [int], and a map field holds exactly the
    keys held by some present input map, each with the sum of the counts
    of the input maps that hold it; so two summaries whose maps share no
    key merge into the union of both maps. Merging the single summary [s]
    gives [s] back, and merging nils only gives the summary with every
    field nil. *)
Theorem MergeSummaries_fields (summaries : list (option Summary)) :
  let merged := MergeSummaries summaries in
  Forall
    (fun f : Summary -> option Z =>
       (f merged = None <-> forall s, Some s ∈ summaries -> f s = None)
       /\ f merged = mergedScalar (presentFields f summaries)
       /\ (presentFields f summaries <> [] ->
           in_int_range (sumZ (presentFields f summaries)) ->
           f merged = Some (sumZ (presentFields f summaries))))
    scalarFields
  /\ Forall
       (fun g : Summary -> option (gmap string Z) =>
          (g merged = None <-> forall s, Some s ∈ summaries -> g s = None)
          /\ (forall m, g merged = Some m ->
               forall k,
                 m !! k = mergedAt (presentFields g summaries) k
                 /\ (is_Some (m !! k) <->
                     exists mi, mi ∈ presentFields g summaries /\ is_Some (mi !! k)))
          /\ (forall (a b : Summary) (ma mb : gmap string Z),
                 g a = Some ma -> g b = Some mb ->
                 ma ##ₘ mb -> countsInRange ma -> countsInRange mb ->
                 g (MergeSummaries [Some a; Some b]) = Some (ma ∪ mb)))
       mapFields
  /\ (forall s, summaryInRange s -> MergeSummaries [Some s] = s)
  /\ ((forall o, o ∈ summaries -> o = None) ->
      merged = mkSummary None None None None None None).
Proof.
  intros merged. split; [|split; [|split]].
  - eapply Forall_impl; [apply scalarFields_merged|]. intros f Hf.
    pose proof (MergeSummaries_scalar f summaries Hf) as Hm. fold merged in Hm.
    split; [|split; [exact Hm|]].
    + rewrite Hm, <- presentFields_nil. by destruct (presentFields f summaries).
    + rewrite Hm. intros Hne Hrange. unfold mergedScalar.
      destruct (presentFields f summaries); [done|]. by rewrite wrap_in_range.
  - eapply Forall_impl; [apply mapFields_merged|]. intros g Hg.
    destruct (MergeSummaries_map g summaries Hg) as [Hnil Hat].
    fold merged in Hnil, Hat. split; [|split].
    + by rewrite Hnil, presentFields_nil.
    + intros m Hm k. specialize (Hat k). rewrite Hm in Hat. cbn in Hat.
      split; [exact Hat|]. rewrite Hat. apply mergedAt_is_Some.
    + intros a b ma mb. by apply MergeSummaries_disjoint.
  - apply MergeSummaries_singleton.
  - apply MergeSummaries_nils.
Qed.

End MergeFacts.

(** ** The message on unsupported resource types *)

Lemma string_app_assoc (a b c : string) : (a +:+ b) +:+ c = a +:+ (b +:+ c).
Proof.
  induction a as [|x a IH]; [done|].
  change (String x ((a +:+ b) +:+ c) = String x (a +:+ (b +:+ c))). by rewrite IH.
Qed.

Lemma string_app_nil_r (a : string) : a +:+ "" = a.
Proof.
  induction a as [|x a IH]; [done|].
  change (String x (a +:+ "") = String x a). by rewrite IH.
Qed.

(** The line printed for one unsupported type under [--show-skipped]. *)
Definition typeLine (tc : string * Z) : string :=
  newline +:+ pretty tc.2 +:+ " x " +:+ tc.1.

Definition typeLines (entries : list (string * Z)) : string :=
  foldr (fun tc rest => typeLine tc +:+ rest) "" entries.

Lemma typeLines_fold (entries : list (string * Z)) (msg : string) :
  fold_left (fun msg (tc : string * Z) =>
               msg +:+ (newline +:+ pretty tc.2 +:+ " x " +:+ tc.1)) entries msg
  = msg +:+ typeLines entries.
Proof.
  revert msg. induction entries as [|tc entries IH]; intros msg; cbn [fold_left typeLines foldr].
  - by rewrite string_app_nil_r.
  - rewrite IH. unfold typeLines, typeLine. by rewrite string_app_assoc.
Qed.

Section MessageFacts.
Context {M D : Type} `{MapRange}.

(** C9 (as the code has it). The message is empty when the merged summary
    has no unsupported resource type. When it has at least one, the
    message starts with their number, uses the singular phrase for
    exactly one type and the plural phrase for more, carries the hint to
    rerun with the flag only when the show-skipped flag is not set, and
    then the call-to-action line; when the flag is set, one line per
    unsupported type with its count follows, each type once. *)
Theorem unsupportedResourcesMessage_shape (r : Root M D) (showSkipped : bool) :
  (UnsupportedResourceCounts (MergedSummary r) = None
   \/ UnsupportedResourceCounts (MergedSummary r) = Some ∅ ->
   unsupportedResourcesMessage r showSkipped = "")
  /\ (forall counts : gmap string Z,
         UnsupportedResourceCounts (MergedSummary r) = Some counts ->
         counts <> ∅ ->
         exists entries : list (string * Z),
           entries ≡ₚ map_to_list counts
           /\ unsupportedResourcesMessage r showSkipped
              = (pretty (Z.of_nat (size counts)) +:+ " "
                   +:+ (if decide (size counts = 1%nat) then singularMsg else pluralMsg)
                   +:+ (if showSkipped then "" else rerunHint)
                   +:+ "." +:+ newline +:+ callToAction)
                  +:+ (if showSkipped then typeLines entries else "")).
Proof.
  unfold unsupportedResourcesMessage. split.
  - intros [-> | ->]; [done|]. by rewrite map_size_empty.
  - intros counts -> Hne. exists (rangeOrder counts).
    split; [apply rangeOrder_perm|].
    destruct (Nat.eqb_spec (size counts) 0) as [Hz|Hnz].
    { by apply map_size_empty_iff in Hz. }
    assert (Z.eqb (Z.of_nat (size counts)) 1
            = if decide (size counts = 1%nat) then true else false) as ->.
    { case_decide as H1; [by rewrite H1|]. apply Z.eqb_neq. lia. }
    destruct showSkipped.
    + rewrite typeLines_fold. by case_decide.
    + rewrite string_app_nil_r. by case_decide.
Qed.

End MessageFacts.

(** * Examples on concrete inputs

    Decimals are [decimal], [sort.Slice] is [insertionSort], maps are
    visited in the order of [map_to_list], and supported providers are
    recognised by [prefixProvider]. *)

Definition usd (cents : Z) : option decimal := Some (mkDecimal cents (-2)).

Definition priced (name rtype : string) (hourly monthly : option decimal)
  : schema.Resource decimal :=
  schema.mkResource name rtype false false ∅ hourly monthly [] [].

Definition skipped (name rtype : string) : schema.Resource decimal :=
  schema.mkResource name rtype true false ∅ None None [] [].

(** A free resource: marked no-price, and skipped as well. *)
Definition free (name rtype : string) : schema.Resource decimal :=
  schema.mkResource name rtype true true ∅ None None [] [].

Definition web : schema.Resource decimal :=
  priced "aws_instance.web" "aws_instance" (usd 100) (usd 73000).
Definition db : schema.Resource decimal :=
  priced "aws_db_instance.db" "aws_db_instance" (usd 200) (usd 146000).
Definition unknown : schema.Resource decimal :=
  skipped "aws_new_thing.x" "aws_new_thing".
Definition vpc : schema.Resource decimal := free "aws_vpc.main" "aws_vpc".
Definition vm : schema.Resource decimal :=
  skipped "azurerm_virtual_machine.vm" "azurerm_virtual_machine".

Definition allFields (includeUnsupported : bool) : SummaryOptions :=
  mkSummaryOptions includeUnsupported [].

Definition project (name : string) (resources : list (schema.Resource decimal))
  : schema.Project unit decimal :=
  schema.mkProject name None [] resources [] false.

(** The scenario of the specification: resources [b] and [a] with hourly
    costs 1.00 and 2.00 and a skipped resource [c]. *)
Example breakdown_scenario :
  let b := outputBreakdown
             [priced "b" "aws_instance" (usd 100) None;
              priced "a" "aws_instance" (usd 200) None;
              skipped "c" "unknown_type"] in
  Name <$> Resources b = ["a"; "b"]
  /\ TotalHourlyCost b = usd 300
  /\ TotalMonthlyCost b = Some Zero.
Proof. by vm_compute. Qed.

Example summary_scenario :
  let s := BuildSummary prefixProvider
             [priced "b" "aws_instance" (usd 100) None;
              priced "a" "aws_instance" (usd 200) None;
              skipped "c" "unknown_type"] (allFields true) in
  TotalSupportedResources s = Some 2
  /\ TotalUnsupportedResources s = Some 1
  /\ UnsupportedResourceCounts s = Some {["unknown_type" := 1]}
  /\ TotalResources s = Some 3.
Proof. by vm_compute. Qed.

(** Two breakdowns, one with a nil monthly total and one with monthly total
    10: the report-wide monthly total is 10. *)
Example rollTotals_nil_and_ten :
  snd (fold_left rollTotals
         [Some (mkBreakdown [] (Some Zero) None);
          Some (mkBreakdown [] (Some Zero) (Some (mkDecimal 10 0)))]
         (None, None))
  = Some (mkDecimal 10 0).
Proof. reflexivity. Qed.

(** A report over projects always has present totals, since each breakdown
    total is present; without projects both totals are nil. *)
Example ToOutputFormat_totals_examples :
  rootTotalMonthlyCost
    (ToOutputFormat prefixProvider 0 [project "p" []; project "q" [web]])
  = usd 73000
  /\ rootTotalMonthlyCost (ToOutputFormat (M:=unit) (D:=decimal) prefixProvider 0 [])
     = None.
Proof. by vm_compute. Qed.

(** Witness for C2. *)
Lemma MergeSummaries_fields_witness :
  let s := mkSummary (Some {["aws_instance" := 2]}) None (Some 2) None (Some 0) (Some 3) in
  summaryInRange s /\ MergeSummaries [Some s] = s.
Proof.
  intros s.
  assert (summaryInRange s) as Hs.
  { unfold summaryInRange, scalarFields, mapFields.
    split; repeat (apply Forall_cons; split); try apply Forall_nil_2; cbn.
    all: try (intros v [= <-]; unfold in_int_range; lia).
    all: try (by intros ? [=]).
    intros m [= <-] k v [_ <-]%lookup_singleton_Some. unfold in_int_range. lia. }
  split; [exact Hs|].
  destruct (MergeSummaries_fields [Some s]) as (_ & _ & Hsingle & _).
  exact (Hsingle s Hs).
Defined.

(** Witness for C3. *)
Lemma skipped_resource_accounting_witness :
  schema.IsSkipped unknown = true
  /\ outputBreakdown [web; unknown; db] = outputBreakdown [web; db]
  /\ TotalUnsupportedResources (BuildSummary prefixProvider [web; unknown; db] (allFields false))
     = (fun n => int_add n 1)
         <$> TotalUnsupportedResources (BuildSummary prefixProvider [web; db] (allFields false)).
Proof.
  split; [reflexivity|].
  destruct (skipped_resource_accounting prefixProvider [web] [db] unknown
              (allFields false) eq_refl) as (Hb & _ & _ & _ & Hu & _).
  split; [exact Hb|].
  destruct (Hu eq_refl eq_refl) as (_ & Ht & _). exact Ht.
Defined.

(** Counterexample for C3 as stated: a free resource is marked skipped, yet
    it is counted as a no-price resource and neither under its type in
    [UnsupportedResourceCounts] nor in [TotalUnsupportedResources]. *)
Lemma skipped_free_resource_not_unsupported :
  schema.IsSkipped vpc = true
  /\ UnsupportedResourceCounts (BuildSummary prefixProvider [vpc] (allFields true)) = Some ∅
  /\ TotalUnsupportedResources (BuildSummary prefixProvider [vpc] (allFields true)) = Some 0
  /\ TotalNoPriceResources (BuildSummary prefixProvider [vpc] (allFields true)) = Some 1.
Proof. by vm_compute. Qed.

(** A skipped resource of an unsupported provider is counted nowhere when
    unsupported providers are left out. *)
Example skipped_foreign_resource_not_counted :
  schema.IsSkipped vm = true
  /\ BuildSummary prefixProvider [vm] (allFields false)
     = mkSummary (Some ∅) (Some ∅) (Some 0) (Some 0) (Some 0) (Some 1).
Proof. by vm_compute. Qed.

(** Witness for C4. *)
Lemma ToOutputFormat_totals_rule_witness :
  Forall (fun t : option decimal => t = None) [None; None]
  /\ nilAwareSum ([None; None] ++ [Some (mkDecimal 10 0)])%list = Some (mkDecimal 10 0).
Proof.
  assert (Forall (fun t : option decimal => t = None) [None; None]) as Hnil
      by (repeat constructor).
  split; [exact Hnil|].
  destruct (ToOutputFormat_totals_rule (M:=unit) (D:=decimal) prefixProvider)
    as (_ & _ & _ & _ & Hfirst & _).
  exact (Hfirst [None; None] (mkDecimal 10 0) Hnil).
Defined.

(** Two resources with the same name and different costs, as the flat list
    of a report over two projects may hold them. *)
Definition webCheap : Resource decimal :=
  mkResource "aws_instance.web" ∅ ∅ (usd 100) (usd 73000) [] [].
Definition webDear : Resource decimal :=
  mkResource "aws_instance.web" ∅ ∅ (usd 400) (usd 292000) [] [].
Definition dbOut : Resource decimal :=
  mkResource "aws_db_instance.db" ∅ ∅ (usd 200) (usd 146000) [] [].

(** Counterexample for C6 as stated: the two input orders of the same two
    resources give two different outputs, so the output order depends on the
    insertion order. *)
Lemma sortResources_depends_on_input_order :
  [webCheap; webDear] ≡ₚ [webDear; webCheap]
  /\ sortKey "" webCheap = sortKey "" webDear
  /\ sortResources [webCheap; webDear] "" = [webCheap; webDear]
  /\ sortResources [webDear; webCheap] "" = [webDear; webCheap]
  /\ sortResources [webCheap; webDear] "" <> sortResources [webDear; webCheap] "".
Proof.
  split; [apply Permutation_swap|].
  split; [reflexivity|]. split; [reflexivity|]. split; [reflexivity|].
  intros Heq. vm_compute in Heq. discriminate Heq.
Qed.

(** Witness for C6. *)
Lemma sortResources_order_witness :
  NoDup (sortKey "" <$> [webCheap; dbOut])
  /\ sortResources [dbOut; webCheap] "" = sortResources [webCheap; dbOut] ""
  /\ sortResources (sortResources [webCheap; dbOut] "") "" = sortResources [webCheap; dbOut] "".
Proof.
  assert (NoDup (sortKey "" <$> [webCheap; dbOut])) as Hnd.
  { apply NoDup_cons. split; [|apply NoDup_singleton].
    by intros [=]%list_elem_of_singleton. }
  split; [exact Hnd|].
  destruct (sortResources_order [webCheap; dbOut] "") as (_ & _ & _ & _ & _ & Hdistinct).
  destruct (Hdistinct Hnd) as [Hperm Hidem].
  split; [apply Hperm, Permutation_swap | exact Hidem].
Defined.

(** Witness for C8: the virtual machine is left out of every bucket, and is
    counted in [TotalResources]. *)
Lemma BuildSummary_TotalResources_length_witness :
  TotalResources (BuildSummary prefixProvider [web; vm] (allFields false)) = Some 2
  /\ 2 = Z.of_nat (length [web; vm]).
Proof.
  split; [reflexivity|].
  exact (BuildSummary_TotalResources_length prefixProvider [web; vm] (allFields false) 2
           eq_refl).
Defined.

(** Witness for C10. *)
Lemma BuildSummary_TotalResources_selector_witness :
  ("TotalResources" ∈ ["TotalResources"])
  /\ ("Total" ∉ ["TotalResources"])
  /\ TotalResources (BuildSummary prefixProvider [web; db]
                       (mkSummaryOptions false ["TotalResources"])) = None
  /\ TotalResources (BuildSummary prefixProvider [web; db]
                       (mkSummaryOptions false ["Total"])) = Some 2.
Proof.
  assert ("TotalResources" ∈ ["TotalResources"]) as Hin by left.
  assert ("Total" ∉ ["TotalResources"]) as Hnot.
  { intros [=]%list_elem_of_singleton. }
  split; [exact Hin|]. split; [exact Hnot|]. split.
  - exact (proj1 (BuildSummary_TotalResources_selector prefixProvider [web; db]
                    (mkSummaryOptions false ["TotalResources"])) Hin Hnot).
  - apply (proj2 (BuildSummary_TotalResources_selector prefixProvider [web; db]
                    (mkSummaryOptions false ["Total"]))).
    left. left.
Defined.

(** Counterexample for C9 as stated: a report whose project has no
    unsupported resource type gets the empty message, with neither the hint
    nor the call-to-action line. *)
Lemma unsupportedResourcesMessage_empty :
  let r := ToOutputFormat prefixProvider 0 [project "p" [web; db]] in
  UnsupportedResourceCounts (MergedSummary r) = Some ∅
  /\ unsupportedResourcesMessage r false = ""
  /\ unsupportedResourcesMessage r true = ""
  /\ forall showSkipped pre post,
       unsupportedResourcesMessage r showSkipped <> pre +:+ callToAction +:+ post.
Proof.
  intros r.
  assert (forall showSkipped, unsupportedResourcesMessage r showSkipped = "") as Hmsg.
  { by intros []; vm_compute. }
  split; [by vm_compute|]. split; [apply Hmsg|]. split; [apply Hmsg|].
  intros showSkipped pre post. rewrite Hmsg. by destruct pre.
Qed.

(** Witness for C9: one unsupported type, seen twice. *)
Lemma unsupportedResourcesMessage_shape_witness :
  let r := ToOutputFormat prefixProvider 0 [project "p" [web; unknown]; project "q" [unknown]] in
  UnsupportedResourceCounts (MergedSummary r) = Some {["aws_new_thing" := 2]}
  /\ ({["aws_new_thing" := 2]} : gmap string Z) <> ∅
  /\ exists entries : list (string * Z),
       entries ≡ₚ [("aws_new_thing", 2)]
       /\ unsupportedResourcesMessage r true
          = ("1 " +:+ singularMsg +:+ "." +:+ newline +:+ callToAction)
              +:+ typeLines entries.
Proof.
  intros r.
  assert (UnsupportedResourceCounts (MergedSummary r) = Some {["aws_new_thing" := 2]})
    as Hcounts by (by vm_compute).
  assert (({["aws_new_thing" := 2]} : gmap string Z) <> ∅) as Hne
      by apply insert_non_empty.
  split; [exact Hcounts|]. split; [exact Hne|].
  destruct (proj2 (unsupportedResourcesMessage_shape r true) _ Hcounts Hne)
    as (entries & Hperm & Hmsg).
  exists entries. split.
  - by rewrite Hperm, map_to_list_singleton.
  - rewrite Hmsg. by rewrite map_size_singleton.
Defined.

(** * Further properties of the package *)

(** ** [contains], [addIntPtrs] and [mergeCounts] on their own *)

Lemma wrap_add_r (a b : Z) : wrap (a + wrap b) = wrap (a + b).
Proof. by rewrite Z.add_comm, wrap_add_l, Z.add_comm. Qed.

Lemma int_add_comm (a b : Z) : int_add a b = int_add b a.
Proof. unfold int_add. by rewrite Z.add_comm. Qed.

Lemma int_add_assoc (a b c : Z) : int_add (int_add a b) c = int_add a (int_add b c).
Proof. unfold int_add. rewrite wrap_add_l, wrap_add_r. f_equal. lia. Qed.

(** X1. [contains] answers true exactly when the element occurs in the
    slice, so it answers false on the empty slice, and a slice put together
    from two holds the element when one of the two does. *)
Theorem contains_occurs (arr arr' : list string) (e : string) :
  (contains arr e = true <-> e ∈ arr)
  /\ (contains arr e = false <-> e ∉ arr)
  /\ contains [] e = false
  /\ contains (arr ++ arr')%list e = contains arr e || contains arr' e.
Proof.
  split; [apply contains_elem_of|]. split; [|split; [done|]].
  - rewrite <- contains_elem_of. by destruct (contains arr e).
  - induction arr as [|a arr IH]; cbn; [done|].
    by destruct (String.eqb a e).
Qed.

(** X2. [addIntPtrs] is nil only when both operands are nil; a nil operand
    counts as zero beside a present one; the operation is commutative and
    associative, and its result, when present, is a Go [int]. *)
Theorem addIntPtrs_algebra (i1 i2 i3 : option Z) :
  (addIntPtrs i1 i2 = None <-> i1 = None /\ i2 = None)
  /\ addIntPtrs i1 i2 = addIntPtrs i2 i1
  /\ addIntPtrs (addIntPtrs i1 i2) i3 = addIntPtrs i1 (addIntPtrs i2 i3)
  /\ (forall v : Z, addIntPtrs (Some v) None = Some (wrap v))
  /\ (forall v : Z, addIntPtrs i1 i2 = Some v -> in_int_range v).
Proof.
  split; [|split; [|split; [|split]]].
  - destruct i1, i2; cbn; split; by try intros [??].
  - destruct i1, i2; cbn; by rewrite 1?int_add_comm.
  - destruct i1 as [a|], i2 as [b|], i3 as [c|]; cbn; try done; f_equal;
      unfold int_add; rewrite ?wrap_add_l, ?wrap_add_r, ?wrap_idem; f_equal; lia.
  - intros v. cbn. unfold int_add. by rewrite Z.add_0_r.
  - intros v. destruct i1, i2; cbn; try done; intros [= <-]; apply wrap_range.
Qed.

Section MergeCountsFacts.
Context `{MapRange}.

(** X3. [mergeCounts] is nil only when both maps are nil. Otherwise the
    result holds exactly the keys of the two maps; a key of the second map
    gets the Go sum of the two counts, a missing count being zero, and a key
    of the first map alone keeps its count. Merging with a nil second map
    copies the first map, and for counts that are Go [int]s the operation
    is commutative. *)
Theorem mergeCounts_keys_and_counts (c1 c2 : option (gmap string Z)) :
  (mergeCounts c1 c2 = None <-> c1 = None /\ c2 = None)
  /\ (forall res : gmap string Z,
         mergeCounts c1 c2 = Some res ->
         dom res = dom (default ∅ c1) ∪ dom (default ∅ c2)
         /\ forall k : string,
             res !! k
             = match default ∅ c2 !! k with
               | Some v => Some (int_add (count_at (default ∅ c1) k) v)
               | None => default ∅ c1 !! k
               end)
  /\ (forall m : gmap string Z, mergeCounts (Some m) None = Some m)
  /\ ((forall m, c1 = Some m -> countsInRange m) ->
      (forall m, c2 = Some m -> countsInRange m) ->
      mergeCounts c1 c2 = mergeCounts c2 c1).
Proof.
  assert (Hlookup : forall (d1 d2 : option (gmap string Z)) res k,
             mergeCounts d1 d2 = Some res ->
             res !! k
             = match default ∅ d2 !! k with
               | Some v => Some (int_add (count_at (default ∅ d1) k) v)
               | None => default ∅ d1 !! k
               end).
  { intros d1 d2 res k Hres. rewrite (mergeCounts_lookup _ _ _ k Hres).
    unfold count_at. destruct d1, d2; cbn; rewrite ?lookup_empty; done. }
  split; [apply mergeCounts_None|]. split; [|split].
  - intros res Hres. split; [|intros k; by apply Hlookup].
    apply set_eq. intros k. rewrite elem_of_union, !elem_of_dom, (Hlookup _ _ _ k Hres).
    destruct (default ∅ c2 !! k), (default ∅ c1 !! k); split;
      first [ by intros [[? [=]]|[? [=]]] | by eauto | by intros [? [=]] ].
  - intros m.
    destruct (mergeCounts (Some m) None) as [res|] eqn:Hres;
      [|by apply mergeCounts_None in Hres as [? _]].
    f_equal. apply map_eq. intros k. by rewrite (Hlookup _ _ _ k Hres).
  - intros H1 H2.
    destruct (mergeCounts c1 c2) as [res|] eqn:Hres,
             (mergeCounts c2 c1) as [res'|] eqn:Hres'.
    + f_equal. apply map_eq. intros k.
      rewrite (Hlookup _ _ _ k Hres), (Hlookup _ _ _ k Hres'). unfold count_at.
      destruct c1 as [m1|], c2 as [m2|]; cbn; rewrite ?lookup_empty;
        try destruct (m1 !! k) as [v1|] eqn:Hk1;
        try destruct (m2 !! k) as [v2|] eqn:Hk2; cbn; try done.
      * by rewrite int_add_comm.
      * by rewrite int_add_0_l by (by eapply H1).
      * by rewrite int_add_0_l by (by eapply H2).
      * by rewrite int_add_0_l by (by eapply H1).
      * by rewrite int_add_0_l by (by eapply H2).
    + apply mergeCounts_None in Hres' as [-> ->]. by cbn in Hres.
    + apply mergeCounts_None in Hres as [-> ->]. by cbn in Hres'.
    + done.
Qed.

End MergeCountsFacts.

(** ** [MergeSummaries]: order and grouping of the inputs *)

Lemma sumZ_perm (vs vs' : list Z) : vs ≡ₚ vs' -> sumZ vs = sumZ vs'.
Proof.
  unfold sumZ. induction 1 as [|x l l' _ IH|x y l|l l' l'' _ IH1 _ IH2]; cbn; lia.
Qed.

Lemma mergedScalar_perm (vs vs' : list Z) :
  vs ≡ₚ vs' -> mergedScalar vs = mergedScalar vs'.
Proof.
  intros Hperm. destruct vs as [|v vs].
  - by apply Permutation_nil in Hperm as ->.
  - destruct vs' as [|v' vs']; [by apply Permutation_nil_r in Hperm|].
    cbn [mergedScalar]. by rewrite (sumZ_perm _ _ Hperm).
Qed.

Lemma sumZ_one (a : Z) : sumZ [a] = a.
Proof. unfold sumZ. cbn. lia. Qed.

Lemma sumZ_two (a b : Z) : sumZ [a; b] = a + b.
Proof. unfold sumZ. cbn. lia. Qed.

Lemma mergedScalar_app (vs1 vs2 : list Z) :
  mergedScalar (vs1 ++ vs2)%list
  = mergedScalar (option_list (mergedScalar vs1) ++ option_list (mergedScalar vs2))%list.
Proof.
  destruct vs1 as [|x vs1], vs2 as [|y vs2].
  - done.
  - change (Some (wrap (sumZ (y :: vs2)))
            = Some (wrap (sumZ [wrap (sumZ (y :: vs2))]))).
    by rewrite sumZ_one, wrap_idem.
  - rewrite app_nil_r.
    change (Some (wrap (sumZ (x :: vs1)))
            = Some (wrap (sumZ [wrap (sumZ (x :: vs1))]))).
    by rewrite sumZ_one, wrap_idem.
  - change (Some (wrap (sumZ ((x :: vs1) ++ (y :: vs2))%list))
            = Some (wrap (sumZ [wrap (sumZ (x :: vs1)); wrap (sumZ (y :: vs2))]))).
    by rewrite sumZ_app, sumZ_two, wrap_add_l, wrap_add_r.
Qed.

Lemma option_gmap_eq (o1 o2 : option (gmap string Z)) :
  (o1 = None <-> o2 = None) ->
  (forall k, o1 ≫= (fun m => m !! k) = o2 ≫= (fun m => m !! k)) ->
  o1 = o2.
Proof.
  destruct o1 as [m1|], o2 as [m2|]; cbn; intros Hnil Hk.
  - f_equal. by apply map_eq.
  - by destruct Hnil as [_ Hnil]; specialize (Hnil eq_refl).
  - by destruct Hnil as [Hnil _]; specialize (Hnil eq_refl).
  - done.
Qed.

Lemma Summary_eq_fields (s1 s2 : Summary) :
  Forall (fun f => f s1 = f s2) scalarFields ->
  Forall (fun g => g s1 = g s2) mapFields ->
  s1 = s2.
Proof.
  unfold scalarFields, mapFields. rewrite !Forall_cons.
  destruct s1, s2. cbn. intros (-> & -> & -> & -> & _) (-> & -> & _). done.
Qed.

Section MergeOrderFacts.
Context `{MapRange}.

(** X4. The merged summary does not depend on the order of the summaries
    in the list. *)
Theorem MergeSummaries_permutation (summaries summaries' : list (option Summary)) :
  summaries ≡ₚ summaries' -> MergeSummaries summaries = MergeSummaries summaries'.
Proof.
  intros Hperm. apply Summary_eq_fields.
  - eapply Forall_impl; [apply scalarFields_merged|]. intros f Hf.
    rewrite !(MergeSummaries_scalar f) by done.
    apply mergedScalar_perm. unfold presentFields. by rewrite Hperm.
  - eapply Forall_impl; [apply mapFields_merged|]. intros g Hg.
    destruct (MergeSummaries_map g summaries Hg) as [Hnil Hat].
    destruct (MergeSummaries_map g summaries' Hg) as [Hnil' Hat'].
    assert (presentFields g summaries ≡ₚ presentFields g summaries') as Hp.
    { unfold presentFields. by rewrite Hperm. }
    apply option_gmap_eq.
    + rewrite Hnil, Hnil'. split; intros Hn; rewrite Hn in Hp.
      * by apply Permutation_nil in Hp.
      * by apply Permutation_nil_r in Hp.
    + intros k. rewrite Hat, Hat'. apply mergedScalar_perm. by rewrite Hp.
Qed.

(** X5. Merging goes through grouping: merging two lists of summaries
    apart and then merging the two results gives what merging the joined
    list gives. *)
Theorem MergeSummaries_app (summaries1 summaries2 : list (option Summary)) :
  MergeSummaries [Some (MergeSummaries summaries1); Some (MergeSummaries summaries2)]
  = MergeSummaries (summaries1 ++ summaries2)%list.
Proof.
  apply Summary_eq_fields.
  - eapply Forall_impl; [apply scalarFields_merged|]. intros f Hf.
    assert (presentFields f (summaries1 ++ summaries2)%list
            = (presentFields f summaries1 ++ presentFields f summaries2)%list) as Happ.
    { unfold presentFields. apply omap_app. }
    assert (presentFields f
              [Some (MergeSummaries summaries1); Some (MergeSummaries summaries2)]
            = (option_list (f (MergeSummaries summaries1))
                 ++ option_list (f (MergeSummaries summaries2)))%list) as Htwo.
    { unfold presentFields. cbn.
      by destruct (f (MergeSummaries summaries1)), (f (MergeSummaries summaries2)). }
    rewrite (MergeSummaries_scalar f _ Hf), Htwo.
    rewrite (MergeSummaries_scalar f (summaries1 ++ summaries2)%list Hf), Happ.
    rewrite (mergedScalar_app (presentFields f summaries1)).
    by rewrite (MergeSummaries_scalar f summaries1 Hf),
      (MergeSummaries_scalar f summaries2 Hf).
  - eapply Forall_impl; [apply mapFields_merged|]. intros g Hg.
    destruct (MergeSummaries_map g summaries1 Hg) as [Hnil1 Hat1].
    destruct (MergeSummaries_map g summaries2 Hg) as [Hnil2 Hat2].
    destruct (MergeSummaries_map g (summaries1 ++ summaries2)%list Hg) as [Hnil Hat].
    destruct (MergeSummaries_map g
                [Some (MergeSummaries summaries1); Some (MergeSummaries summaries2)] Hg)
      as [Hnil' Hat'].
    assert (presentFields g (summaries1 ++ summaries2)%list
            = (presentFields g summaries1 ++ presentFields g summaries2)%list) as Happ.
    { unfold presentFields. apply omap_app. }
    assert (presentFields g
              [Some (MergeSummaries summaries1); Some (MergeSummaries summaries2)]
            = (option_list (g (MergeSummaries summaries1))
                 ++ option_list (g (MergeSummaries summaries2)))%list) as Htwo.
    { unfold presentFields. cbn.
      by destruct (g (MergeSummaries summaries1)), (g (MergeSummaries summaries2)). }
    apply option_gmap_eq.
    + rewrite Hnil, Hnil', Happ, Htwo, !app_nil, <- Hnil1, <- Hnil2.
      by destruct (g (MergeSummaries summaries1)), (g (MergeSummaries summaries2));
        cbn; split; intros [??].
    + intros k. rewrite Hat, Hat', Happ, Htwo. unfold mergedAt.
      rewrite !omap_app.
      rewrite (mergedScalar_app (omap _ (presentFields g summaries1))).
      fold (mergedAt (presentFields g summaries1) k)
           (mergedAt (presentFields g summaries2) k).
      rewrite <- Hat1, <- Hat2.
      by destruct (g (MergeSummaries summaries1)) as [m1|],
        (g (MergeSummaries summaries2)) as [m2|]; cbn;
        try destruct (m1 !! k); try destruct (m2 !! k).
Qed.

End MergeOrderFacts.

(** ** [BuildSummary]: what the counters count *)

(** The three buckets of the classification loop. *)
Inductive bucket := NoPriceBucket | UnsupportedBucket | SupportedBucket.

(** The number of elements of a list that satisfy a test. *)
Definition countWhere {A : Type} (p : A -> bool) (l : list A) : nat :=
  length (List.filter p l).

(** A count as a Go [int]. *)
Definition intOfNat (n : nat) : Z := wrap (Z.of_nat n).

(** The entry of a count map for a resource type seen [n] times: no entry
    when it was never seen. *)
Definition natCount (n : nat) : option Z :=
  if (n =? 0)%nat then None else Some (intOfNat n).

(** The sum of the counts of a map. *)
Definition mapSum (m : gmap string Z) : Z :=
  map_fold (fun (_ : string) (v acc : Z) => v + acc) 0 m.

Lemma countWhere_app {A : Type} (p : A -> bool) (l1 l2 : list A) :
  countWhere p (l1 ++ l2)%list = (countWhere p l1 + countWhere p l2)%nat.
Proof. unfold countWhere. by rewrite List.filter_app, length_app. Qed.

Lemma countWhere_cons {A : Type} (p : A -> bool) (x : A) (l : list A) :
  countWhere p (x :: l) = ((if p x then 1 else 0) + countWhere p l)%nat.
Proof. unfold countWhere. cbn. by destruct (p x). Qed.

Lemma countWhere_le {A : Type} (p : A -> bool) (l : list A) :
  (countWhere p l <= length l)%nat.
Proof. apply List.filter_length_le. Qed.

Lemma intOfNat_small (n : nat) : Z.of_nat n < 2 ^ 63 -> intOfNat n = Z.of_nat n.
Proof. intros Hn. apply wrap_in_range. unfold in_int_range. lia. Qed.

Lemma intOfNat_add (a b : nat) : int_add (intOfNat a) (intOfNat b) = intOfNat (a + b).
Proof.
  unfold int_add, intOfNat. rewrite wrap_add_l, wrap_add_r. f_equal. lia.
Qed.

Lemma intOfNat_succ (n : nat) : int_add (intOfNat n) 1 = intOfNat (n + 1).
Proof. unfold int_add, intOfNat. rewrite wrap_add_l. f_equal. lia. Qed.

Lemma natCount_default (n : nat) : default 0 (natCount n) = intOfNat n.
Proof. unfold natCount. by destruct n. Qed.

Lemma natCount_add (a b : nat) :
  match natCount b with
  | Some v => Some (int_add (default 0 (natCount a)) v)
  | None => natCount a
  end = natCount (a + b).
Proof.
  rewrite natCount_default. unfold natCount at 1 3.
  destruct b as [|b]; cbn [Nat.eqb].
  - by rewrite Nat.add_0_r.
  - rewrite intOfNat_add. unfold natCount.
    by replace (a + S b)%nat with (S (a + b)) by lia.
Qed.

Section BuildSummaryCounts.
Context {D : Type}.
Variable HasSupportedProvider : string -> bool.

(** The test a resource passes to be counted in a bucket, read off the
    branches of the loop: the provider filter first, then [NoPrice], then
    [IsSkipped]. *)
Definition inBucket (opts : SummaryOptions) (b : bucket) (r : schema.Resource D) : bool :=
  passesProviderFilter HasSupportedProvider opts r
  && match b with
     | NoPriceBucket => schema.NoPrice r
     | UnsupportedBucket => negb (schema.NoPrice r) && schema.IsSkipped r
     | SupportedBucket => negb (schema.NoPrice r) && negb (schema.IsSkipped r)
     end.

Definition inBucketOfType (opts : SummaryOptions) (b : bucket) (t : string)
           (r : schema.Resource D) : bool :=
  inBucket opts b r && String.eqb (schema.ResourceType r) t.

(** The counters after the loop, as counts over the list. *)
Definition countersCount (opts : SummaryOptions) (l : list (schema.Resource D))
           (c : counters) : Prop :=
  totalSupportedResources c = intOfNat (countWhere (inBucket opts SupportedBucket) l)
  /\ totalUnsupportedResources c = intOfNat (countWhere (inBucket opts UnsupportedBucket) l)
  /\ totalNoPriceResources c = intOfNat (countWhere (inBucket opts NoPriceBucket) l)
  /\ (forall t, supportedResourceCounts c !! t
                = natCount (countWhere (inBucketOfType opts SupportedBucket t) l))
  /\ (forall t, unsupportedResourceCounts c !! t
                = natCount (countWhere (inBucketOfType opts UnsupportedBucket t) l)).

Lemma incrCount_natCount (m : gmap string Z) (n : string -> nat) (t0 : string) :
  (forall t, m !! t = natCount (n t)) ->
  forall t, incrCount m t0 !! t
            = natCount (n t + (if String.eqb t0 t then 1 else 0)).
Proof.
  intros Hm t. rewrite incrCount_insert. unfold count_at.
  destruct (String.eqb_spec t0 t) as [->|Hne].
  - rewrite lookup_insert_eq, Hm, natCount_default, intOfNat_succ.
    unfold natCount. by replace (n t + 1)%nat with (S (n t)) by lia.
  - rewrite lookup_insert_ne by done. by rewrite Hm, Nat.add_0_r.
Qed.

Lemma classify_countersCount (opts : SummaryOptions) (l : list (schema.Resource D))
      (c : counters) (r : schema.Resource D) :
  countersCount opts l c ->
  countersCount opts (l ++ [r])%list (classify HasSupportedProvider opts c r).
Proof.
  intros (Hs & Hu & Hn & Hms & Hmu). unfold countersCount.
  rewrite !countWhere_app.
  assert (forall b t, countWhere (inBucketOfType opts b t) (l ++ [r])%list
                      = (countWhere (inBucketOfType opts b t) l
                         + (if inBucket opts b r
                            then (if String.eqb (schema.ResourceType r) t then 1 else 0)
                            else 0))%nat) as Hty.
  { intros b t. rewrite countWhere_app. f_equal. unfold countWhere, inBucketOfType. cbn.
    by destruct (inBucket opts b r), (String.eqb (schema.ResourceType r) t). }
  unfold countWhere at 2 4 6. cbn [List.filter].
  unfold classify, inBucket, passesProviderFilter in *.
  destruct (IncludeUnsupportedProviders opts),
    (HasSupportedProvider (schema.ResourceType r)),
    (schema.NoPrice r), (schema.IsSkipped r); cbn;
    rewrite ?Nat.add_0_r, ?Hs, ?Hu, ?Hn, ?intOfNat_succ;
    (repeat split; try done; intros t; rewrite Hty; cbn;
     rewrite ?Nat.add_0_r; try done;
     first [ by apply (incrCount_natCount _ _ _ Hms)
           | by apply (incrCount_natCount _ _ _ Hmu) ]).
Qed.

Lemma fold_classify_countersCount (opts : SummaryOptions) (l : list (schema.Resource D)) :
  countersCount opts l (fold_left (classify HasSupportedProvider opts) l initCounters).
Proof.
  induction l as [|r l IH] using rev_ind.
  - by repeat split.
  - rewrite fold_left_app. by apply classify_countersCount.
Qed.

End BuildSummaryCounts.

Lemma fold_left_comm_perm {A B : Type} (f : A -> B -> A) (l l' : list B) (a : A) :
  (forall a x y, f (f a x) y = f (f a y) x) ->
  l ≡ₚ l' -> fold_left f l a = fold_left f l' a.
Proof.
  intros Hcomm Hperm. revert a.
  induction Hperm as [|x l l' _ IH|x y l|l l' l'' _ IH1 _ IH2]; intros a; cbn.
  - done.
  - apply IH.
  - by rewrite Hcomm.
  - by rewrite IH1.
Qed.

Section BuildSummaryFacts.
Context {D : Type}.
Variable HasSupportedProvider : string -> bool.

Lemma bucket_of_resource (opts : SummaryOptions) (r : schema.Resource D) :
  ((if inBucket HasSupportedProvider opts SupportedBucket r then 1 else 0)
   + (if inBucket HasSupportedProvider opts UnsupportedBucket r then 1 else 0)
   + (if inBucket HasSupportedProvider opts NoPriceBucket r then 1 else 0))%nat
  = if passesProviderFilter HasSupportedProvider opts r then 1%nat else 0%nat.
Proof.
  unfold inBucket.
  by destruct (passesProviderFilter HasSupportedProvider opts r),
    (schema.NoPrice r), (schema.IsSkipped r).
Qed.

Lemma buckets_partition (opts : SummaryOptions) (l : list (schema.Resource D)) :
  (countWhere (inBucket HasSupportedProvider opts SupportedBucket) l
   + countWhere (inBucket HasSupportedProvider opts UnsupportedBucket) l
   + countWhere (inBucket HasSupportedProvider opts NoPriceBucket) l)%nat
  = countWhere (passesProviderFilter HasSupportedProvider opts) l.
Proof.
  induction l as [|r l IH]; [done|].
  rewrite !countWhere_cons. pose proof (bucket_of_resource opts r) as Hr.
  revert Hr IH.
  generalize (countWhere (inBucket HasSupportedProvider opts SupportedBucket) l),
    (countWhere (inBucket HasSupportedProvider opts UnsupportedBucket) l),
    (countWhere (inBucket HasSupportedProvider opts NoPriceBucket) l),
    (countWhere (passesProviderFilter HasSupportedProvider opts) l).
  by destruct (inBucket HasSupportedProvider opts SupportedBucket r),
    (inBucket HasSupportedProvider opts UnsupportedBucket r),
    (inBucket HasSupportedProvider opts NoPriceBucket r),
    (passesProviderFilter HasSupportedProvider opts r); intros; lia.
Qed.

(** X6. The fields [BuildSummary] fills are counts over the input list:
    the three totals count the resources that pass the provider filter and
    are, in this order of precedence, marked no-price, marked skipped, or
    neither; each count map holds, for every resource type with at least
    one resource in its bucket, the number of those resources, and no entry
    for the other types. The counts are kept as Go [int]s, and they are
    the exact numbers whenever the length of the list is a Go [int]. *)
Theorem BuildSummary_counts (resources : list (schema.Resource D)) (opts : SummaryOptions) :
  let s := BuildSummary HasSupportedProvider resources opts in
  let counted b := intOfNat (countWhere (inBucket HasSupportedProvider opts b) resources) in
  TotalSupportedResources s
  = (if selected opts "TotalSupportedResources" then Some (counted SupportedBucket) else None)
  /\ TotalUnsupportedResources s
     = (if selected opts "TotalUnsupportedResources"
        then Some (counted UnsupportedBucket) else None)
  /\ TotalNoPriceResources s
     = (if selected opts "TotalNoPriceResources" then Some (counted NoPriceBucket) else None)
  /\ (forall m, SupportedResourceCounts s = Some m ->
      forall t, m !! t
                = natCount (countWhere
                              (inBucketOfType HasSupportedProvider opts SupportedBucket t)
                              resources))
  /\ (forall m, UnsupportedResourceCounts s = Some m ->
      forall t, m !! t
                = natCount (countWhere
                              (inBucketOfType HasSupportedProvider opts UnsupportedBucket t)
                              resources))
  /\ (Z.of_nat (length resources) < 2 ^ 63 ->
      forall p : schema.Resource D -> bool,
        intOfNat (countWhere p resources) = Z.of_nat (countWhere p resources)).
Proof.
  intros s counted. subst s counted. unfold BuildSummary. cbn.
  destruct (fold_classify_countersCount HasSupportedProvider opts resources)
    as (Hs & Hu & Hn & Hms & Hmu).
  rewrite Hs, Hu, Hn. repeat split.
  - destruct (selected opts "SupportedResourceCounts"); [|done]. by intros m [= <-].
  - destruct (selected opts "UnsupportedResourceCounts"); [|done]. by intros m [= <-].
  - intros Hlen p. apply intOfNat_small.
    pose proof (countWhere_le p resources). lia.
Qed.

(** X7. For a list whose length is a Go [int], the three totals of a
    summary with all fields are non-negative and add up to the number of
    resources that pass the provider filter, which is at most
    [TotalResources]; when unsupported providers are included they add up
    to [TotalResources]. *)
Theorem BuildSummary_totals_add_up
        (resources : list (schema.Resource D)) (includeUnsupported : bool) :
  Z.of_nat (length resources) < 2 ^ 63 ->
  let opts := mkSummaryOptions includeUnsupported [] in
  let s := BuildSummary HasSupportedProvider resources opts in
  exists supported unsupported noPrice : Z,
    TotalSupportedResources s = Some supported
    /\ TotalUnsupportedResources s = Some unsupported
    /\ TotalNoPriceResources s = Some noPrice
    /\ TotalResources s = Some (Z.of_nat (length resources))
    /\ 0 <= supported /\ 0 <= unsupported /\ 0 <= noPrice
    /\ supported + unsupported + noPrice
       = Z.of_nat (countWhere (passesProviderFilter HasSupportedProvider opts) resources)
    /\ supported + unsupported + noPrice <= Z.of_nat (length resources)
    /\ (includeUnsupported = true ->
        supported + unsupported + noPrice = Z.of_nat (length resources)).
Proof.
  intros Hlen opts s.
  destruct (fold_classify_countersCount HasSupportedProvider opts resources)
    as (Hs & Hu & Hn & _).
  pose proof (countWhere_le (inBucket HasSupportedProvider opts SupportedBucket) resources).
  pose proof (countWhere_le (inBucket HasSupportedProvider opts UnsupportedBucket) resources).
  pose proof (countWhere_le (inBucket HasSupportedProvider opts NoPriceBucket) resources).
  rewrite intOfNat_small in Hs, Hu, Hn by lia.
  apply (f_equal Some) in Hs, Hu, Hn.
  change (Some (totalSupportedResources _)) with (TotalSupportedResources s) in Hs.
  change (Some (totalUnsupportedResources _)) with (TotalUnsupportedResources s) in Hu.
  change (Some (totalNoPriceResources _)) with (TotalNoPriceResources s) in Hn.
  eexists _, _, _. split; [exact Hs|]. split; [exact Hu|]. split; [exact Hn|].
  split; [done|].
  pose proof (buckets_partition opts resources) as Hpart.
  pose proof (countWhere_le (passesProviderFilter HasSupportedProvider opts) resources)
    as Hle.
  repeat split; try lia.
  intros ->.
  assert (countWhere (passesProviderFilter HasSupportedProvider opts) resources
          = length resources) as Hall.
  { unfold countWhere. clear. induction resources as [|r l IH]; [done|].
    cbn. by rewrite IH. }
  lia.
Qed.

(** X8. The summary does not depend on the order of the resources. *)
Theorem BuildSummary_permutation
        (resources resources' : list (schema.Resource D)) (opts : SummaryOptions) :
  resources ≡ₚ resources' ->
  BuildSummary HasSupportedProvider resources opts
  = BuildSummary HasSupportedProvider resources' opts.
Proof.
  intros Hperm. unfold BuildSummary.
  rewrite (fold_left_comm_perm _ resources resources' initCounters
             (classify_comm HasSupportedProvider opts) Hperm).
  by rewrite (Permutation_length Hperm).
Qed.

End BuildSummaryFacts.

(** ** [BuildSummary]: totals against count maps *)

Lemma mapSum_empty : mapSum ∅ = 0.
Proof. apply map_fold_empty. Qed.

Lemma mapSum_insert (m : gmap string Z) (t : string) (v : Z) :
  m !! t = None -> mapSum (<[t := v]> m) = v + mapSum m.
Proof.
  intros Hm. unfold mapSum. apply map_fold_insert_L; [|done]. intros. lia.
Qed.

Lemma mapSum_delete (m : gmap string Z) (t : string) (v : Z) :
  m !! t = Some v -> mapSum m = v + mapSum (delete t m).
Proof.
  intros Hm. rewrite <- (insert_delete_id m t v Hm) at 1.
  apply mapSum_insert, lookup_delete_eq.
Qed.

Lemma mapSum_nonneg (m : gmap string Z) :
  (forall t v, m !! t = Some v -> 0 <= v) -> 0 <= mapSum m.
Proof.
  induction m as [|t v m Hm IH] using map_ind; intros Hpos.
  - by rewrite mapSum_empty.
  - rewrite mapSum_insert by done.
    assert (0 <= v) by (apply (Hpos t); apply lookup_insert_eq).
    assert (0 <= mapSum m); [|lia].
    apply IH. intros t' v' Hv'. apply (Hpos t').
    rewrite lookup_insert_ne; [done|]. intros ->. congruence.
Qed.

(** A count map whose counts are at least one and add up to [total]. *)
Definition countsAddUp (m : gmap string Z) (total : Z) : Prop :=
  mapSum m = total /\ forall t v, m !! t = Some v -> 1 <= v <= total.

Lemma incrCount_countsAddUp (m : gmap string Z) (t : string) (total : Z) :
  countsAddUp m total -> total + 1 < 2 ^ 63 ->
  countsAddUp (incrCount m t) (total + 1).
Proof.
  intros [Hsum Hpos] Hlt. rewrite incrCount_insert. unfold count_at.
  destruct (m !! t) as [old|] eqn:Hold; cbn.
  - destruct (Hpos t old Hold) as [Hold1 Hold2].
    assert (int_add old 1 = old + 1) as ->.
    { apply wrap_in_range. unfold in_int_range. lia. }
    rewrite <- insert_delete_eq. split.
    + rewrite mapSum_insert by apply lookup_delete_eq.
      rewrite (mapSum_delete m t old Hold) in Hsum. lia.
    + intros t' v'. rewrite insert_delete_eq.
      destruct (decide (t = t')) as [<-|Hne].
      * rewrite lookup_insert_eq. intros [= <-]. lia.
      * rewrite lookup_insert_ne by done. intros Hv'.
        destruct (Hpos t' v' Hv'). lia.
  - assert (0 <= mapSum m).
    { apply mapSum_nonneg. intros t' v' Hv'. destruct (Hpos t' v' Hv'). lia. }
    assert (int_add 0 1 = 1) as -> by done. split.
    + rewrite mapSum_insert by done. lia.
    + intros t' v'. destruct (decide (t = t')) as [<-|Hne].
      * rewrite lookup_insert_eq. intros [= <-]. lia.
      * rewrite lookup_insert_ne by done. intros Hv'.
        destruct (Hpos t' v' Hv'). lia.
Qed.

Section BuildSummarySums.
Context {D : Type}.
Variable HasSupportedProvider : string -> bool.

Lemma classify_maps (opts : SummaryOptions) (c : counters) (r : schema.Resource D) :
  supportedResourceCounts (classify HasSupportedProvider opts c r)
  = (if inBucket HasSupportedProvider opts SupportedBucket r
     then incrCount (supportedResourceCounts c) (schema.ResourceType r)
     else supportedResourceCounts c)
  /\ unsupportedResourceCounts (classify HasSupportedProvider opts c r)
     = (if inBucket HasSupportedProvider opts UnsupportedBucket r
        then incrCount (unsupportedResourceCounts c) (schema.ResourceType r)
        else unsupportedResourceCounts c).
Proof.
  unfold classify, inBucket, passesProviderFilter.
  by destruct (IncludeUnsupportedProviders opts),
    (HasSupportedProvider (schema.ResourceType r)),
    (schema.NoPrice r), (schema.IsSkipped r).
Qed.

Lemma fold_classify_countsAddUp (opts : SummaryOptions) (l : list (schema.Resource D)) :
  Z.of_nat (length l) < 2 ^ 63 ->
  let c := fold_left (classify HasSupportedProvider opts) l initCounters in
  countsAddUp (supportedResourceCounts c)
    (Z.of_nat (countWhere (inBucket HasSupportedProvider opts SupportedBucket) l))
  /\ countsAddUp (unsupportedResourceCounts c)
       (Z.of_nat (countWhere (inBucket HasSupportedProvider opts UnsupportedBucket) l)).
Proof.
  induction l as [|r l IH] using rev_ind; intros Hlen.
  - cbn. split; split; try apply mapSum_empty; intros t v; by rewrite lookup_empty.
  - rewrite length_app in Hlen. cbn in Hlen.
    destruct IH as [IHs IHu]; [lia|].
    cbn zeta. rewrite fold_left_app, !countWhere_app. cbn [fold_left].
    set (c := fold_left (classify HasSupportedProvider opts) l initCounters) in *.
    pose proof (countWhere_le (inBucket HasSupportedProvider opts SupportedBucket) l).
    pose proof (countWhere_le (inBucket HasSupportedProvider opts UnsupportedBucket) l).
    destruct (classify_maps opts c r) as [-> ->].
    rewrite !countWhere_cons. change (countWhere _ []) with 0%nat.
    split.
    + destruct (inBucket HasSupportedProvider opts SupportedBucket r).
      * rewrite Nat2Z.inj_add. apply incrCount_countsAddUp; [done | lia].
      * by rewrite !Nat.add_0_r.
    + destruct (inBucket HasSupportedProvider opts UnsupportedBucket r).
      * rewrite Nat2Z.inj_add. apply incrCount_countsAddUp; [done | lia].
      * by rewrite !Nat.add_0_r.
Qed.

(** X9. For a list whose length is a Go [int], each count map of the
    summary holds counts of at least one, and the counts of
    [SupportedResourceCounts] add up to [TotalSupportedResources], those of
    [UnsupportedResourceCounts] to [TotalUnsupportedResources]. *)
Theorem BuildSummary_counts_add_up
        (resources : list (schema.Resource D)) (opts : SummaryOptions) :
  Z.of_nat (length resources) < 2 ^ 63 ->
  let s := BuildSummary HasSupportedProvider resources opts in
  (forall m total,
      SupportedResourceCounts s = Some m -> TotalSupportedResources s = Some total ->
      mapSum m = total /\ forall t v, m !! t = Some v -> 1 <= v <= total)
  /\ (forall m total,
         UnsupportedResourceCounts s = Some m -> TotalUnsupportedResources s = Some total ->
         mapSum m = total /\ forall t v, m !! t = Some v -> 1 <= v <= total).
Proof.
  intros Hlen s.
  destruct (fold_classify_countsAddUp opts resources Hlen) as [Hs Hu].
  destruct (fold_classify_countersCount HasSupportedProvider opts resources)
    as (Hts & Htu & _).
  rewrite intOfNat_small in Hts, Htu
    by (pose proof (countWhere_le (inBucket HasSupportedProvider opts SupportedBucket)
                      resources);
        pose proof (countWhere_le (inBucket HasSupportedProvider opts UnsupportedBucket)
                      resources); lia).
  subst s. unfold BuildSummary. cbn. rewrite Hts, Htu. split.
  - intros m total. destruct (selected opts "SupportedResourceCounts"); [|done].
    destruct (selected opts "TotalSupportedResources"); [|done].
    by intros [= <-] [= <-].
  - intros m total. destruct (selected opts "UnsupportedResourceCounts"); [|done].
    destruct (selected opts "TotalUnsupportedResources"); [|done].
    by intros [= <-] [= <-].
Qed.

End BuildSummarySums.

(** ** [BuildSummary] and [MergeSummaries] together *)

Section BuildAndMerge.
Context {D : Type} `{MapRange}.
Variable HasSupportedProvider : string -> bool.

Lemma BuildSummary_inRange (l : list (schema.Resource D)) (opts : SummaryOptions) :
  Z.of_nat (length l) < 2 ^ 63 ->
  summaryInRange (BuildSummary HasSupportedProvider l opts).
Proof.
  intros Hlen.
  destruct (fold_classify_countersCount HasSupportedProvider opts l)
    as (Hs & Hu & Hn & Hms & Hmu).
  unfold summaryInRange, scalarFields, mapFields, BuildSummary.
  split; repeat (apply Forall_cons; split); try apply Forall_nil_2; cbn.
  - destruct (selected opts "TotalSupportedResources"); [|done].
    intros v [= <-]. rewrite Hs. apply wrap_range.
  - destruct (selected opts "TotalUnsupportedResources"); [|done].
    intros v [= <-]. rewrite Hu. apply wrap_range.
  - destruct (selected opts "TotalNoPriceResources"); [|done].
    intros v [= <-]. rewrite Hn. apply wrap_range.
  - destruct (selected opts "Total"); [|done].
    intros v [= <-]. unfold in_int_range. lia.
  - destruct (selected opts "SupportedResourceCounts"); [|done].
    intros m [= <-] k v. rewrite Hms. unfold natCount.
    destruct (_ =? 0)%nat; [done|]. intros [= <-]. apply wrap_range.
  - destruct (selected opts "UnsupportedResourceCounts"); [|done].
    intros m [= <-] k v. rewrite Hmu. unfold natCount.
    destruct (_ =? 0)%nat; [done|]. intros [= <-]. apply wrap_range.
Qed.

Lemma mergeCounts_natCount (m1 m2 m : gmap string Z) (n1 n2 : string -> nat) :
  (forall t, m1 !! t = natCount (n1 t)) ->
  (forall t, m2 !! t = natCount (n2 t)) ->
  (forall t, m !! t = natCount (n1 t + n2 t)) ->
  mergeCounts (Some m1) (Some m2) = Some m.
Proof.
  intros H1 H2 Hm.
  destruct (mergeCounts (Some m1) (Some m2)) as [res|] eqn:Hres;
    [|by apply mergeCounts_None in Hres as [? _]].
  f_equal. apply map_eq. intros t.
  rewrite (mergeCounts_lookup _ _ _ t Hres), Hm. cbn.
  rewrite H1, H2. apply natCount_add.
Qed.

Lemma BuildSummary_app_merge (l1 l2 : list (schema.Resource D)) (opts : SummaryOptions) :
  Z.of_nat (length (l1 ++ l2)%list) < 2 ^ 63 ->
  mergeStep (BuildSummary HasSupportedProvider l1 opts)
    (Some (BuildSummary HasSupportedProvider l2 opts))
  = BuildSummary HasSupportedProvider (l1 ++ l2)%list opts.
Proof.
  intros Hlen.
  destruct (fold_classify_countersCount HasSupportedProvider opts l1)
    as (Hs1 & Hu1 & Hn1 & Hms1 & Hmu1).
  destruct (fold_classify_countersCount HasSupportedProvider opts l2)
    as (Hs2 & Hu2 & Hn2 & Hms2 & Hmu2).
  destruct (fold_classify_countersCount HasSupportedProvider opts (l1 ++ l2)%list)
    as (Hs & Hu & Hn & Hms & Hmu).
  rewrite countWhere_app in Hs, Hu, Hn.
  apply Summary_eq_fields; unfold scalarFields, mapFields, BuildSummary;
    repeat (apply Forall_cons; split); try apply Forall_nil_2; cbn -[mergeCounts].
  - destruct (selected opts "TotalSupportedResources"); [|done].
    cbn. by rewrite Hs1, Hs2, Hs, intOfNat_add.
  - destruct (selected opts "TotalUnsupportedResources"); [|done].
    cbn. by rewrite Hu1, Hu2, Hu, intOfNat_add.
  - destruct (selected opts "TotalNoPriceResources"); [|done].
    cbn. by rewrite Hn1, Hn2, Hn, intOfNat_add.
  - destruct (selected opts "Total"); [|done].
    cbn. f_equal. rewrite length_app in *. rewrite Nat2Z.inj_add.
    apply wrap_in_range. unfold in_int_range. lia.
  - destruct (selected opts "SupportedResourceCounts"); [|done].
    eapply mergeCounts_natCount; [exact Hms1 | exact Hms2 |].
    intros t. by rewrite Hms, countWhere_app.
  - destruct (selected opts "UnsupportedResourceCounts"); [|done].
    eapply mergeCounts_natCount; [exact Hmu1 | exact Hmu2 |].
    intros t. by rewrite Hmu, countWhere_app.
Qed.

Lemma MergeSummaries_BuildSummary_lists
      (lists : list (list (schema.Resource D))) (opts : SummaryOptions) :
  lists <> [] ->
  Z.of_nat (length (concat lists)) < 2 ^ 63 ->
  MergeSummaries ((fun l => Some (BuildSummary HasSupportedProvider l opts)) <$> lists)
  = BuildSummary HasSupportedProvider (concat lists) opts.
Proof.
  induction lists as [|l lists IH] using rev_ind; [done|]. intros _ Hlen.
  rewrite concat_app in *. cbn [concat] in *. rewrite app_nil_r in *.
  rewrite fmap_app. cbn [fmap list_fmap]. rewrite MergeSummaries_snoc.
  destruct lists as [|l0 lists].
  - cbn [concat app] in *. cbn [fmap list_fmap].
    change (mergeStep (MergeSummaries []) ?o) with (MergeSummaries [o]).
    by apply MergeSummaries_singleton, BuildSummary_inRange.
  - rewrite IH; [by apply BuildSummary_app_merge | done |].
    rewrite length_app in Hlen. lia.
Qed.

(** X10. Merging the summaries of several resource lists, built with the
    same options, gives the summary of the lists joined, provided there is
    at least one list and the joined length is a Go [int]. *)
Theorem MergeSummaries_BuildSummary_concat
        (lists : list (list (schema.Resource D))) (opts : SummaryOptions) :
  lists <> [] ->
  Z.of_nat (length (concat lists)) < 2 ^ 63 ->
  MergeSummaries ((fun l => Some (BuildSummary HasSupportedProvider l opts)) <$> lists)
  = BuildSummary HasSupportedProvider (concat lists) opts.
Proof. apply MergeSummaries_BuildSummary_lists. Qed.

End BuildAndMerge.

(** ** [ToOutputFormat]: the per-project results and the merged summaries *)

Section ReportResults.
Context {M D : Type} `{Decimal D} `{SliceSorter} `{MapRange}.
Variable HasSupportedProvider : string -> bool.

(** The options of the summary kept in [ProjectResult.Summary] and of the
    one kept in [fullSummary]. *)
Definition restrictedOptions : SummaryOptions :=
  mkSummaryOptions false ["UnsupportedResourceCounts"].
Definition fullOptions : SummaryOptions := mkSummaryOptions true [].

(** The result appended for one project. *)
Definition projectResult (p : schema.Project M D) : ProjectResult M D :=
  {| ProjectName := schema.pName p;
     ProjectMetadata := schema.Metadata p;
     PastBreakdown :=
       if schema.HasDiff p then Some (outputBreakdown (schema.PastResources p)) else None;
     prBreakdown := Some (outputBreakdown (schema.Resources p));
     prDiff := if schema.HasDiff p then Some (outputBreakdown (schema.Diff p)) else None;
     prSummary :=
       Some (BuildSummary HasSupportedProvider (schema.Resources p) restrictedOptions);
     fullSummary :=
       Some (BuildSummary HasSupportedProvider (schema.Resources p) fullOptions) |}.

Lemma projectStep_results (projects : list (schema.Project M D)) (st : assembly) :
  outProjectResults (fold_left (projectStep HasSupportedProvider) projects st)
  = (outProjectResults st ++ (projectResult <$> projects))%list.
Proof.
  revert st. induction projects as [|p projects IH]; intros st.
  - cbn. by rewrite app_nil_r.
  - cbn [fold_left]. rewrite IH. csimpl.
    unfold projectStep, projectResult. cbn [rollTotals].
    destruct (schema.HasDiff p); cbn [outProjectResults]; by rewrite <- app_assoc.
Qed.

Lemma ToOutputFormat_results (now : Z) (projects : list (schema.Project M D)) :
  ProjectResults (ToOutputFormat HasSupportedProvider now projects)
  = projectResult <$> projects.
Proof. unfold ToOutputFormat. cbn [ProjectResults]. by rewrite projectStep_results. Qed.

(** X11. The report holds one result per project, in the order of the
    projects and under their names. Each result carries the breakdown of
    the project's current resources; it carries a past breakdown and a diff
    breakdown exactly when the project has a diff, built from the past and
    the diff resources; and it carries the two summaries of the current
    resources, the displayed one restricted to [UnsupportedResourceCounts]
    over supported providers, the full one over all providers. *)
Theorem ToOutputFormat_project_results (now : Z) (projects : list (schema.Project M D)) :
  let r := ToOutputFormat HasSupportedProvider now projects in
  length (ProjectResults r) = length projects
  /\ ProjectName <$> ProjectResults r = schema.pName <$> projects
  /\ forall (i : nat) (p : schema.Project M D) (pr : ProjectResult M D),
      projects !! i = Some p ->
      ProjectResults r !! i = Some pr ->
      ProjectName pr = schema.pName p
      /\ ProjectMetadata pr = schema.Metadata p
      /\ prBreakdown pr = Some (outputBreakdown (schema.Resources p))
      /\ (is_Some (PastBreakdown pr) <-> schema.HasDiff p = true)
      /\ (is_Some (prDiff pr) <-> schema.HasDiff p = true)
      /\ (schema.HasDiff p = true ->
          PastBreakdown pr = Some (outputBreakdown (schema.PastResources p))
          /\ prDiff pr = Some (outputBreakdown (schema.Diff p)))
      /\ prSummary pr
         = Some (BuildSummary HasSupportedProvider (schema.Resources p)
                   (mkSummaryOptions false ["UnsupportedResourceCounts"]))
      /\ fullSummary pr
         = Some (BuildSummary HasSupportedProvider (schema.Resources p)
                   (mkSummaryOptions true [])).
Proof.
  intros r. subst r. rewrite ToOutputFormat_results.
  split; [apply length_fmap|]. split.
  - rewrite <- list_fmap_compose. by apply list_fmap_ext.
  - intros i p pr Hp. rewrite list_lookup_fmap, Hp. intros [= <-].
    unfold projectResult. cbn.
    destruct (schema.HasDiff p); repeat split; try done;
      try (by intros [? [=]]); by eauto.
Qed.

Lemma outputBreakdown_totals (l : list (schema.Resource D)) :
  is_Some (TotalHourlyCost (outputBreakdown l))
  /\ is_Some (TotalMonthlyCost (outputBreakdown l)).
Proof.
  unfold outputBreakdown, calculateTotalCosts.
  rewrite calculateTotalCosts_from. cbn. by eauto.
Qed.

(** X12. The report-wide totals are nil exactly when there is no project:
    with at least one project both are present, whatever the resources. *)
Theorem ToOutputFormat_totals_nil_iff (now : Z) (projects : list (schema.Project M D)) :
  let r := ToOutputFormat HasSupportedProvider now projects in
  (rootTotalHourlyCost r = None <-> projects = [])
  /\ (rootTotalMonthlyCost r = None <-> projects = []).
Proof.
  intros r. subst r. unfold ToOutputFormat.
  cbn [rootTotalHourlyCost rootTotalMonthlyCost].
  destruct (projectStep_fold HasSupportedProvider projects (mkAssembly None None [] []))
    as [Ht _].
  cbn zeta in Ht. cbn [totalHourlyCost totalMonthlyCost] in Ht.
  rewrite rollTotals_fold, !addToTotal_fold in Ht. injection Ht as -> ->.
  rewrite !nilAwareSum_None. unfold currentBreakdowns.
  destruct projects as [|p projects]; [by split; split; try constructor|].
  split; (split; [|done]); csimpl; rewrite Forall_cons; intros [Hp _];
    unfold breakdownHourly, breakdownMonthly in Hp; cbn in Hp;
    destruct (outputBreakdown_totals (schema.Resources p)) as [[? Hh] [? Hm]];
    congruence.
Qed.

End ReportResults.

Lemma string_app_empty (a b : string) : a +:+ b = "" -> a = "" /\ b = "".
Proof. destruct a; [done|]. discriminate. Qed.

Lemma option_gmap_lookups_None (o : option (gmap string Z)) :
  (forall k, o ≫= (fun m => m !! k) = None) <-> o = None \/ o = Some ∅.
Proof.
  destruct o as [m|]; cbn; [|by split; [left|]].
  split.
  - intros Hk. right. f_equal. apply map_empty. exact Hk.
  - intros [[=]|[= ->]] k. apply lookup_empty.
Qed.

Section ReportSummaries.
Context {M D : Type} `{Decimal D} `{SliceSorter} `{MapRange}.
Variable HasSupportedProvider : string -> bool.

(** X13. For a report over at least one project whose resources, taken
    together, have a length that is a Go [int], the merged summary is the
    restricted summary of all the projects' resources taken together, and
    the merged full summary is their full summary. *)
Theorem ToOutputFormat_merged_summaries (now : Z) (projects : list (schema.Project M D)) :
  projects <> [] ->
  Z.of_nat (length (concat (schema.Resources <$> projects))) < 2 ^ 63 ->
  let r := ToOutputFormat HasSupportedProvider now projects in
  MergedSummary r
  = BuildSummary HasSupportedProvider (concat (schema.Resources <$> projects))
      (mkSummaryOptions false ["UnsupportedResourceCounts"])
  /\ MergedFullSummary r
     = BuildSummary HasSupportedProvider (concat (schema.Resources <$> projects))
         (mkSummaryOptions true []).
Proof.
  intros Hne Hlen r. subst r. unfold MergedSummary, MergedFullSummary.
  rewrite ToOutputFormat_results.
  assert (schema.Resources <$> projects <> []) as Hne'.
  { by destruct projects. }
  split.
  - rewrite <- (MergeSummaries_BuildSummary_lists HasSupportedProvider _ _ Hne' Hlen).
    f_equal. rewrite <- !list_fmap_compose. by apply list_fmap_ext.
  - rewrite <- (MergeSummaries_BuildSummary_lists HasSupportedProvider _ _ Hne' Hlen).
    f_equal. rewrite <- !list_fmap_compose. by apply list_fmap_ext.
Qed.

(** X14. The merged summary of a report has no field but
    [UnsupportedResourceCounts]: its five other fields are nil, for every
    list of projects; and the merged full summary of a report over at least
    one project has all six fields. *)
Theorem ToOutputFormat_merged_fields (now : Z) (projects : list (schema.Project M D)) :
  let r := ToOutputFormat HasSupportedProvider now projects in
  SupportedResourceCounts (MergedSummary r) = None
  /\ TotalSupportedResources (MergedSummary r) = None
  /\ TotalUnsupportedResources (MergedSummary r) = None
  /\ TotalNoPriceResources (MergedSummary r) = None
  /\ TotalResources (MergedSummary r) = None
  /\ (is_Some (UnsupportedResourceCounts (MergedSummary r)) <-> projects <> [])
  /\ (projects <> [] ->
      is_Some (SupportedResourceCounts (MergedFullSummary r))
      /\ is_Some (UnsupportedResourceCounts (MergedFullSummary r))
      /\ is_Some (TotalSupportedResources (MergedFullSummary r))
      /\ is_Some (TotalUnsupportedResources (MergedFullSummary r))
      /\ is_Some (TotalNoPriceResources (MergedFullSummary r))
      /\ is_Some (TotalResources (MergedFullSummary r))).
Proof.
  intros r. subst r. unfold MergedSummary, MergedFullSummary.
  rewrite ToOutputFormat_results.
  assert (map prSummary (projectResult HasSupportedProvider <$> projects)
          = (fun p : schema.Project M D =>
               Some (BuildSummary HasSupportedProvider (schema.Resources p)
                       restrictedOptions)) <$> projects) as ->.
  { change (map prSummary ?l) with (prSummary <$> l).
    rewrite <- list_fmap_compose. by apply list_fmap_ext. }
  assert (map fullSummary (projectResult HasSupportedProvider <$> projects)
          = (fun p : schema.Project M D =>
               Some (BuildSummary HasSupportedProvider (schema.Resources p)
                       fullOptions)) <$> projects) as ->.
  { change (map fullSummary ?l) with (fullSummary <$> l).
    rewrite <- list_fmap_compose. by apply list_fmap_ext. }
  pose proof scalarFields_merged as Hsc. pose proof mapFields_merged as Hmp.
  unfold scalarFields, mapFields in Hsc, Hmp.
  repeat match goal with
         | Hf : Forall _ (_ :: _) |- _ => apply Forall_cons in Hf as [? Hf]
         end.
  assert (forall (A : Type) (f : Summary -> option A) (opts : SummaryOptions),
             (forall l : list (schema.Resource D),
                 f (BuildSummary HasSupportedProvider l opts) = None) ->
             presentFields f
               ((fun p : schema.Project M D =>
                   Some (BuildSummary HasSupportedProvider (schema.Resources p) opts))
                  <$> projects) = []) as Hnone.
  { intros A f opts Hf. unfold presentFields.
    induction projects as [|p ps IH]; [done|]. csimpl. by rewrite Hf. }
  assert (forall (A : Type) (f : Summary -> option A) (opts : SummaryOptions),
             (forall l : list (schema.Resource D),
                 is_Some (f (BuildSummary HasSupportedProvider l opts))) ->
             projects <> [] ->
             presentFields f
               ((fun p : schema.Project M D =>
                   Some (BuildSummary HasSupportedProvider (schema.Resources p) opts))
                  <$> projects) <> []) as Hsome.
  { intros A f opts Hf Hne. unfold presentFields.
    destruct projects as [|p ps]; [done|]. csimpl.
    by destruct (Hf (schema.Resources p)) as [? ->]. }
  assert (forall f vs, mergedByAddIntPtrs f -> vs <> [] ->
                       is_Some (mergedScalar vs)) as Hscalar.
  { intros f [|v vs] _ Hvs; [done | by eexists]. }
  repeat split.
  - apply (MergeSummaries_map SupportedResourceCounts); [done|]. by apply Hnone.
  - rewrite (MergeSummaries_scalar TotalSupportedResources) by done.
    by rewrite Hnone.
  - rewrite (MergeSummaries_scalar TotalUnsupportedResources) by done.
    by rewrite Hnone.
  - rewrite (MergeSummaries_scalar TotalNoPriceResources) by done.
    by rewrite Hnone.
  - rewrite (MergeSummaries_scalar TotalResources) by done.
    by rewrite Hnone.
  - intros Hs ->. by destruct Hs.
  - intros Hne. apply not_eq_None_Some.
    rewrite (proj1 (MergeSummaries_map UnsupportedResourceCounts _ ltac:(done))).
    by apply Hsome; [eexists|].
  - apply not_eq_None_Some.
    rewrite (proj1 (MergeSummaries_map SupportedResourceCounts _ ltac:(done))).
    by apply Hsome; [eexists|].
  - apply not_eq_None_Some.
    rewrite (proj1 (MergeSummaries_map UnsupportedResourceCounts _ ltac:(done))).
    by apply Hsome; [eexists|].
  - rewrite (MergeSummaries_scalar TotalSupportedResources) by done.
    eapply Hscalar; [done|]. by apply Hsome; [eexists|].
  - rewrite (MergeSummaries_scalar TotalUnsupportedResources) by done.
    eapply Hscalar; [done|]. by apply Hsome; [eexists|].
  - rewrite (MergeSummaries_scalar TotalNoPriceResources) by done.
    eapply Hscalar; [done|]. by apply Hsome; [eexists|].
  - rewrite (MergeSummaries_scalar TotalResources) by done.
    eapply Hscalar; [done|]. by apply Hsome; [eexists|].
Qed.

End ReportSummaries.

(** ** [unsupportedResourcesMessage]: when the message is empty *)

Lemma countWhere_zero {A : Type} (p : A -> bool) (l : list A) :
  countWhere p l = 0%nat <-> forall x, x ∈ l -> p x = false.
Proof.
  induction l as [|a l IH]; [by split; [intros _ x ?%elem_of_nil|]|].
  rewrite countWhere_cons. split.
  - intros Hz x [->|Hx]%elem_of_cons.
    + by destruct (p a).
    + apply IH; [|done]. destruct (p a); [done | lia].
  - intros Hall. rewrite (Hall a) by left. cbn. apply IH.
    intros x Hx. apply Hall. by right.
Qed.

Lemma natCount_None (n : nat) : natCount n = None <-> n = 0%nat.
Proof. unfold natCount. destruct n; by split. Qed.

Section MessageEmpty.
Context {M D : Type} `{Decimal D} `{SliceSorter} `{MapRange}.
Variable HasSupportedProvider : string -> bool.

Lemma message_empty_counts (r : Root M D) (showSkipped : bool) :
  unsupportedResourcesMessage r showSkipped = ""
  <-> UnsupportedResourceCounts (MergedSummary r) = None
      \/ UnsupportedResourceCounts (MergedSummary r) = Some ∅.
Proof.
  unfold unsupportedResourcesMessage.
  destruct (UnsupportedResourceCounts (MergedSummary r)) as [counts|]; [|by split; [left|]].
  destruct (Nat.eqb_spec (size counts) 0) as [Hz|Hnz].
  - apply map_size_empty_iff in Hz as ->. by split; [right|].
  - split.
    + intros Hmsg. exfalso.
      assert (forall tail, (pretty (Z.of_nat (size counts)) +:+ " " +:+ tail) <> "")
        as Hhead.
      { intros tail [_ [=]]%string_app_empty. }
      destruct showSkipped.
      * rewrite typeLines_fold in Hmsg.
        apply string_app_empty in Hmsg as [Hmsg _]. by apply Hhead in Hmsg.
      * by apply Hhead in Hmsg.
    + intros [[=]|[= ->]]. by rewrite map_size_empty in Hnz.
Qed.

(** X15. The message is the empty string exactly when the merged summary
    has no unsupported resource type, its map being nil or empty; the
    show-skipped flag has no part in that. *)
Theorem unsupportedResourcesMessage_empty_iff (r : Root M D) (showSkipped : bool) :
  unsupportedResourcesMessage r showSkipped = ""
  <-> UnsupportedResourceCounts (MergedSummary r) = None
      \/ UnsupportedResourceCounts (MergedSummary r) = Some ∅.
Proof. apply message_empty_counts. Qed.

Lemma restricted_unsupported_counts (l : list (schema.Resource D)) :
  exists m : gmap string Z,
    UnsupportedResourceCounts
      (BuildSummary HasSupportedProvider l
         (mkSummaryOptions false ["UnsupportedResourceCounts"])) = Some m
    /\ forall t, m !! t
                 = natCount (countWhere
                               (inBucketOfType HasSupportedProvider
                                  (mkSummaryOptions false ["UnsupportedResourceCounts"])
                                  UnsupportedBucket t) l).
Proof.
  eexists. split; [reflexivity|].
  apply (fold_classify_countersCount HasSupportedProvider
           (mkSummaryOptions false ["UnsupportedResourceCounts"]) l).
Qed.

(** X16. For the report built from a list of projects, the message is
    empty exactly when no project has a resource that is marked skipped,
    is not marked no-price and has a supported provider. *)
Theorem ToOutputFormat_message_empty_iff
        (now : Z) (projects : list (schema.Project M D)) (showSkipped : bool) :
  unsupportedResourcesMessage (ToOutputFormat HasSupportedProvider now projects) showSkipped
  = ""
  <-> forall (p : schema.Project M D) (r : schema.Resource D),
      p ∈ projects -> r ∈ schema.Resources p ->
      HasSupportedProvider (schema.ResourceType r)
      && (negb (schema.NoPrice r) && schema.IsSkipped r) = false.
Proof.
  rewrite message_empty_counts, <- option_gmap_lookups_None.
  unfold MergedSummary. rewrite ToOutputFormat_results.
  assert (mergedByMergeCounts UnsupportedResourceCounts) as Hg by done.
  set (summaries := map prSummary (projectResult HasSupportedProvider <$> projects)).
  destruct (MergeSummaries_map UnsupportedResourceCounts summaries Hg) as [_ Hat].
  assert (forall k,
             mergedAt (presentFields UnsupportedResourceCounts summaries) k = None
             <-> forall p, p ∈ projects ->
                 countWhere (inBucketOfType HasSupportedProvider
                               (mkSummaryOptions false ["UnsupportedResourceCounts"])
                               UnsupportedBucket k) (schema.Resources p) = 0%nat) as Hk.
  { intros k. rewrite eq_None_not_Some, mergedAt_is_Some. subst summaries.
    unfold presentFields. split.
    - intros Hno p Hp. apply natCount_None.
      destruct (restricted_unsupported_counts (schema.Resources p)) as (m & Hm & Hmk).
      rewrite <- Hmk. apply eq_None_not_Some. intros Hsome. apply Hno.
      exists m. split; [|done]. apply list_elem_of_omap.
      exists (Some (BuildSummary HasSupportedProvider (schema.Resources p)
                      (mkSummaryOptions false ["UnsupportedResourceCounts"]))).
      split; [|exact Hm].
      apply list_elem_of_fmap. exists (projectResult HasSupportedProvider p).
      split; [done|]. by apply list_elem_of_fmap_2.
    - intros Hall (m & Hm & Hsome).
      apply list_elem_of_omap in Hm as (o & Ho & Hom).
      apply list_elem_of_fmap in Ho as (pr & -> & Hpr).
      apply list_elem_of_fmap in Hpr as (p & -> & Hp).
      destruct (restricted_unsupported_counts (schema.Resources p)) as (m' & Hm' & Hmk).
      change (UnsupportedResourceCounts
                (BuildSummary HasSupportedProvider (schema.Resources p)
                   (mkSummaryOptions false ["UnsupportedResourceCounts"])) = Some m)
        in Hom.
      rewrite Hm' in Hom. injection Hom as <-.
      rewrite Hmk, (Hall p Hp) in Hsome. by destruct Hsome. }
  split.
  - intros Hnone p r Hp Hr.
    specialize (Hnone (schema.ResourceType r)). rewrite Hat, Hk in Hnone.
    specialize (Hnone p Hp). rewrite countWhere_zero in Hnone.
    specialize (Hnone r Hr). unfold inBucketOfType in Hnone.
    rewrite String.eqb_refl, andb_true_r in Hnone. exact Hnone.
  - intros Hall k. rewrite Hat, Hk. intros p Hp. apply countWhere_zero.
    intros r Hr. unfold inBucketOfType.
    change (inBucket HasSupportedProvider
              (mkSummaryOptions false ["UnsupportedResourceCounts"]) UnsupportedBucket r)
      with (HasSupportedProvider (schema.ResourceType r)
            && (negb (schema.NoPrice r) && schema.IsSkipped r)).
    by rewrite (Hall p r Hp Hr).
Qed.

End MessageEmpty.

(** ** [resourceHasNilCosts] and [breakdownHasNilCosts] *)

(** Each of the loops returns true at the first hit, which is [existsb]. *)
Fixpoint resourceHasNilCosts {D : Type} (resource : Resource D) : bool :=
  match resource with
  | mkResource _ _ _ _ monthly components subs =>
      match monthly with
      | None => true
      | Some _ =>
          if existsb (fun costComponent : CostComponent D =>
                        match ccMonthlyCost costComponent with
                        | None => true
                        | Some _ => false
                        end) components
          then true
          else existsb resourceHasNilCosts subs
      end
  end.

Definition breakdownHasNilCosts {D : Type} (breakdown : Breakdown D) : bool :=
  existsb resourceHasNilCosts (Resources breakdown).

(** Induction over a resource and its sub-resources. *)
Section ResourceInduction.
Context {D : Type} (P : Resource D -> Prop).
Hypothesis Hnode :
  forall name tags metadata hourly monthly components subs,
    Forall P subs ->
    P (mkResource name tags metadata hourly monthly components subs).

Fixpoint Resource_nested_ind (r : Resource D) : P r :=
  match r with
  | mkResource name tags metadata hourly monthly components subs =>
      Hnode name tags metadata hourly monthly components subs
        ((fix all (l : list (Resource D)) : Forall P l :=
            match l with
            | [] => @List.Forall_nil (Resource D) P
            | s :: l' =>
                @List.Forall_cons (Resource D) P s l' (Resource_nested_ind s) (all l')
            end) subs)
  end.

End ResourceInduction.

(** The resource with every hourly cost set to nil, its own, those of its
    cost components and those of its sub-resources. *)
Fixpoint withoutHourlyCosts {D : Type} (r : Resource D) : Resource D :=
  match r with
  | mkResource name tags metadata _ monthly components subs =>
      mkResource name tags metadata None monthly
        (map (fun c : CostComponent D =>
                mkCostComponent (ccName c) (Unit c) (HourlyQuantity c) (MonthlyQuantity c)
                  (Price c) None (ccMonthlyCost c)) components)
        (map withoutHourlyCosts subs)
  end.

Lemma existsb_elem_of {A : Type} (p : A -> bool) (l : list A) :
  existsb p l = true <-> exists x, x ∈ l /\ p x = true.
Proof.
  rewrite existsb_exists. split; intros (x & Hx & Hp); exists x;
    (split; [by apply list_elem_of_In | done]).
Qed.

Lemma existsb_false_elem_of {A : Type} (p : A -> bool) (l : list A) :
  existsb p l = false <-> forall x, x ∈ l -> p x = false.
Proof.
  split.
  - intros He x Hx. destruct (p x) eqn:Hp; [|done].
    assert (existsb p l = true) by (apply existsb_elem_of; eauto). congruence.
  - intros Hall. destruct (existsb p l) eqn:He; [|done].
    apply existsb_elem_of in He as (x & Hx & Hp). rewrite (Hall x Hx) in Hp. done.
Qed.

Section NilCostFacts.
Context {D : Type}.

(** X17. A resource is free of nil costs exactly when its own monthly cost
    is present, the monthly cost of each of its cost components is present,
    and each of its sub-resources is free of nil costs in turn; so a nil
    cost anywhere below a resource shows on the resource. *)
Theorem resourceHasNilCosts_false_iff (r : Resource D) :
  (resourceHasNilCosts r = false
   <-> is_Some (MonthlyCost r)
       /\ (forall c, c ∈ CostComponents r -> is_Some (ccMonthlyCost c))
       /\ (forall s, s ∈ SubResources r -> resourceHasNilCosts s = false))
  /\ (forall s, s ∈ SubResources r ->
      resourceHasNilCosts s = true -> resourceHasNilCosts r = true)
  /\ (forall c, c ∈ CostComponents r ->
      ccMonthlyCost c = None -> resourceHasNilCosts r = true).
Proof.
  destruct r as [name tags metadata hourly monthly components subs].
  cbn [resourceHasNilCosts MonthlyCost CostComponents SubResources].
  set (nilMonthly := fun costComponent : CostComponent D =>
                       match ccMonthlyCost costComponent with
                       | None => true
                       | Some _ => false
                       end).
  assert (Hcomp : existsb nilMonthly components = false
                  <-> forall c, c ∈ components -> is_Some (ccMonthlyCost c)).
  { rewrite existsb_false_elem_of. unfold nilMonthly.
    split; intros Hall c Hc; specialize (Hall c Hc);
      destruct (ccMonthlyCost c); by eauto. }
  split; [|split].
  - destruct monthly as [m|].
    + destruct (existsb nilMonthly components) eqn:He.
      * split; [done|]. intros (_ & Hc & _). apply Hcomp in Hc. congruence.
      * rewrite existsb_false_elem_of. split.
        -- intros Hs. split; [by eexists|]. split; [by apply Hcomp | done].
        -- by intros (_ & _ & Hs).
    + split; [done|]. by intros [[? [=]] _].
  - intros s Hs Hnil. destruct monthly; [|done].
    destruct (existsb nilMonthly components); [done|].
    apply existsb_elem_of. eauto.
  - intros c Hc Hnil. destruct monthly; [|done].
    assert (existsb nilMonthly components = true) as ->; [|done].
    apply existsb_elem_of. exists c. split; [done|]. unfold nilMonthly. by rewrite Hnil.
Qed.

(** X18. [resourceHasNilCosts] never looks at an hourly cost: setting every
    hourly cost of a resource to nil, at every depth, does not change its
    answer. *)
Theorem resourceHasNilCosts_ignores_hourly (r : Resource D) :
  resourceHasNilCosts (withoutHourlyCosts r) = resourceHasNilCosts r.
Proof.
  induction r as [name tags metadata hourly monthly components subs IH]
    using Resource_nested_ind.
  cbn [withoutHourlyCosts resourceHasNilCosts]. destruct monthly; [|done].
  assert (forall f g : CostComponent D -> bool,
             (forall c, f (mkCostComponent (ccName c) (Unit c) (HourlyQuantity c)
                             (MonthlyQuantity c) (Price c) None (ccMonthlyCost c)) = g c) ->
             existsb f (map (fun c : CostComponent D =>
                               mkCostComponent (ccName c) (Unit c) (HourlyQuantity c)
                                 (MonthlyQuantity c) (Price c) None (ccMonthlyCost c))
                          components)
             = existsb g components) as Hcomps.
  { intros f g Hfg. induction components as [|c cs IHc]; [done|].
    cbn. by rewrite Hfg, IHc. }
  rewrite (Hcomps _ (fun costComponent : CostComponent D =>
                       match ccMonthlyCost costComponent with
                       | None => true
                       | Some _ => false
                       end)) by done.
  destruct (existsb _ components); [done|].
  induction IH as [|s subs Hs _ IHsubs]; [done|].
  cbn. by rewrite Hs, IHsubs.
Qed.

(** X19. A breakdown has nil costs exactly when one of its resources has;
    the totals of the breakdown play no part, an empty breakdown has none,
    and the answer does not depend on the order of the resources. *)
Theorem breakdownHasNilCosts_exists (b : Breakdown D) :
  (breakdownHasNilCosts b = true
   <-> exists r, r ∈ Resources b /\ resourceHasNilCosts r = true)
  /\ (forall hourly monthly : option D,
         breakdownHasNilCosts (mkBreakdown [] hourly monthly) = false)
  /\ (forall (resources : list (Resource D)) (hourly monthly : option D),
         resources ≡ₚ Resources b ->
         breakdownHasNilCosts (mkBreakdown resources hourly monthly)
         = breakdownHasNilCosts b).
Proof.
  split; [apply existsb_elem_of|]. split; [done|].
  intros resources hourly monthly Hperm. unfold breakdownHasNilCosts. cbn.
  destruct (existsb resourceHasNilCosts (Resources b)) eqn:Hb.
  - apply existsb_elem_of in Hb as (r & Hr & Hnil).
    apply existsb_elem_of. exists r. by rewrite Hperm.
  - apply existsb_false_elem_of. intros r Hr. rewrite Hperm in Hr.
    by apply (proj1 (existsb_false_elem_of _ _) Hb).
Qed.

End NilCostFacts.

(** ** [sortResources], [outputBreakdown] and [calculateTotalCosts] together *)

Section BreakdownFacts.
Context {D : Type} `{Decimal D} `{SliceSorter}.

(** X20. With a group key the sorted list is grouped: the group-key values
    never decrease along the list, and the resources of one group stand
    next to one another. *)
Theorem sortResources_grouped (l : list (Resource D)) (groupKey : string) :
  let out := sortResources l groupKey in
  (forall (i j : nat) (a b : Resource D),
      (i < j)%nat -> out !! i = Some a -> out !! j = Some b ->
      String.ltb (groupValue groupKey b) (groupValue groupKey a) = false)
  /\ (forall (i j k : nat) (a b c : Resource D),
         (i < j < k)%nat ->
         out !! i = Some a -> out !! j = Some b -> out !! k = Some c ->
         groupValue groupKey a = groupValue groupKey c ->
         groupValue groupKey b = groupValue groupKey a).
Proof.
  intros out.
  assert (Hmono : forall (i j : nat) (a b : Resource D),
             (i < j)%nat -> out !! i = Some a -> out !! j = Some b ->
             String.ltb (groupValue groupKey b) (groupValue groupKey a) = false).
  { intros i j a b Hij Ha Hb.
    pose proof (StronglySorted_lookup _ _ i j a b
                  (sortResources_sorted l groupKey) Hij Ha Hb) as Hab.
    unfold inOrder in Hab. rewrite resourceLess_keyLess in Hab.
    unfold keyLess, sortKey in Hab. cbn in Hab.
    destruct (String.eqb_spec (groupValue groupKey b) (groupValue groupKey a)) as [->|_];
      [apply string_ltb_irrefl | exact Hab]. }
  split; [exact Hmono|].
  intros i j k a b c [Hij Hjk] Ha Hb Hc Hac.
  apply string_ltb_total.
  - by apply (Hmono i j).
  - rewrite Hac. by apply (Hmono j k).
Qed.

Lemma outputResource_Name (r : schema.Resource D) :
  Name (outputResource r) = schema.rName r.
Proof. by destruct r. Qed.

Lemma outputResource_Metadata (r : schema.Resource D) :
  Metadata (outputResource r) = ∅.
Proof. by destruct r. Qed.

(** X21. Normalized resources carry no metadata, so on the resources that
    [outputResource] builds the group key has no effect: whatever the group
    key, they compare by name alone and come out of the sorter in name
    order. *)
Theorem sortResources_normalized_by_name
        (resources : list (schema.Resource D)) (groupKey : string) :
  (forall a b : schema.Resource D,
      resourceLess groupKey (outputResource a) (outputResource b)
      = String.ltb (schema.rName a) (schema.rName b))
  /\ StronglySorted (fun a b => String.ltb (Name b) (Name a) = false)
       (sortResources (outputResource <$> resources) groupKey).
Proof.
  assert (Hless : forall a b : schema.Resource D,
             resourceLess groupKey (outputResource a) (outputResource b)
             = String.ltb (schema.rName a) (schema.rName b)).
  { intros a b. unfold resourceLess, metadata_at.
    rewrite !outputResource_Metadata, !lookup_empty, !outputResource_Name. cbn.
    by destruct (String.eqb groupKey ""). }
  split; [exact Hless|].
  pose proof (sortResources_sorted (outputResource <$> resources) groupKey) as Hs.
  pose proof (sortResources_perm (outputResource <$> resources) groupKey) as Hp.
  assert (Forall (fun x => exists r, x = outputResource r)
            (sortResources (outputResource <$> resources) groupKey)) as Hall.
  { rewrite Hp. apply Forall_fmap, Forall_forall. intros r _. by exists r. }
  clear Hp. induction Hs as [|x out Hs IH Hx]; [constructor|].
  apply Forall_cons in Hall as [[rx ->] Hall].
  constructor; [by apply IH|].
  rewrite Forall_forall in Hx, Hall. apply Forall_forall. intros y Hy.
  destruct (Hall y Hy) as [ry ->]. specialize (Hx _ Hy).
  unfold inOrder in Hx. rewrite Hless in Hx. by rewrite !outputResource_Name.
Qed.

(** X22. The breakdown of a resource list holds the normalized resources
    that are not skipped, each once, in name order; its two totals are
    always present; and the breakdown of the empty list has no resource and
    totals [Zero]. *)
Theorem outputBreakdown_complete_and_sorted (resources : list (schema.Resource D)) :
  let b := outputBreakdown resources in
  Resources b ≡ₚ outputResource <$> filter (fun r => schema.IsSkipped r = false) resources
  /\ length (Resources b)
     = countWhere (fun r => negb (schema.IsSkipped r)) resources
  /\ StronglySorted (fun x y => String.ltb (Name y) (Name x) = false) (Resources b)
  /\ is_Some (TotalHourlyCost b) /\ is_Some (TotalMonthlyCost b)
  /\ outputBreakdown (D:=D) [] = mkBreakdown [] (Some Zero) (Some Zero).
Proof.
  intros b. subst b.
  pose proof (outputBreakdown_resources resources) as Hperm.
  split; [exact Hperm|]. split; [|split; [|split; [|split]]].
  - rewrite Hperm, length_fmap. clear Hperm. unfold countWhere.
    induction resources as [|r l IH]; [done|].
    rewrite filter_cons. cbn [List.filter].
    destruct (schema.IsSkipped r) eqn:Hr; cbn [negb].
    + by rewrite decide_False.
    + rewrite decide_True by done. cbn. by rewrite IH.
  - unfold outputBreakdown. destruct (calculateTotalCosts _). cbn [Resources].
    exact (sortResources_sorted _ "").
  - apply outputBreakdown_totals.
  - apply outputBreakdown_totals.
  - unfold outputBreakdown. cbn [collectResources].
    assert (sortResources (D:=D) [] "" = []) as ->; [|done].
    apply Permutation_nil_r, sortResources_perm.
Qed.

(** X23. The breakdown of a resource list has nil costs exactly when one of
    the resources that are not skipped has nil costs once normalized:
    skipped resources play no part. *)
Theorem outputBreakdown_nil_costs (resources : list (schema.Resource D)) :
  breakdownHasNilCosts (outputBreakdown resources) = true
  <-> exists r, r ∈ resources /\ schema.IsSkipped r = false
                /\ resourceHasNilCosts (outputResource r) = true.
Proof.
  unfold breakdownHasNilCosts. rewrite existsb_elem_of. split.
  - intros (x & Hx & Hnil). rewrite outputBreakdown_resources in Hx.
    apply list_elem_of_fmap in Hx as (r & -> & Hr).
    apply list_elem_of_filter in Hr as [Hsk Hr]. by exists r.
  - intros (r & Hr & Hsk & Hnil). exists (outputResource r). split; [|done].
    rewrite outputBreakdown_resources. apply list_elem_of_fmap_2.
    by apply list_elem_of_filter.
Qed.

(** The resource without its cost components and sub-resources. *)
Definition topLevelOnly (r : Resource D) : Resource D :=
  mkResource (Name r) (Tags r) (Metadata r) (HourlyCost r) (MonthlyCost r) [] [].

(** X24. [calculateTotalCosts] adds the costs of the resources of the list
    only: the costs of their cost components and sub-resources are not
    added, and a resource with both costs nil leaves the totals as they
    are. *)
Theorem calculateTotalCosts_top_level (resources : list (Resource D)) :
  calculateTotalCosts (topLevelOnly <$> resources) = calculateTotalCosts resources
  /\ (forall (l1 l2 : list (Resource D)) (r : Resource D),
         HourlyCost r = None -> MonthlyCost r = None ->
         calculateTotalCosts (l1 ++ r :: l2)%list = calculateTotalCosts (l1 ++ l2)%list).
Proof.
  unfold calculateTotalCosts. split.
  - rewrite !calculateTotalCosts_from. unfold presentCosts.
    assert (forall f : Resource D -> option D,
               (forall r, f (topLevelOnly r) = f r) ->
               omap f (topLevelOnly <$> resources) = omap f resources) as Hsame.
    { intros f Hf. induction resources as [|r l IH]; [done|].
      csimpl. by rewrite Hf, IH. }
    by rewrite !Hsame.
  - intros l1 l2 r Hh Hm. rewrite !calculateTotalCosts_from. unfold presentCosts.
    rewrite !omap_app. csimpl. by rewrite Hh, Hm.
Qed.

End BreakdownFacts.

(** ** The further properties on concrete inputs *)

Definition summaryA : Summary :=
  mkSummary (Some {["aws_instance" := 2]}) None (Some 2) None (Some 0) (Some 3).
Definition summaryB : Summary :=
  mkSummary (Some {["aws_instance" := 1; "aws_db_instance" := 1]})
    (Some {["aws_new_thing" := 4]}) (Some 2) (Some 4) None (Some 7).

Example MergeSummaries_two :
  MergeSummaries [Some summaryA; None; Some summaryB]
  = mkSummary (Some {["aws_instance" := 3; "aws_db_instance" := 1]})
      (Some {["aws_new_thing" := 4]}) (Some 4) (Some 4) (Some 0) (Some 10).
Proof. by vm_compute. Qed.

(** Witness for X4. *)
Lemma MergeSummaries_permutation_witness :
  [Some summaryA; None; Some summaryB] ≡ₚ [None; Some summaryB; Some summaryA]
  /\ MergeSummaries [Some summaryA; None; Some summaryB]
     = MergeSummaries [None; Some summaryB; Some summaryA].
Proof.
  assert ([Some summaryA; None; Some summaryB] ≡ₚ [None; Some summaryB; Some summaryA])
    as Hperm.
  { etrans; [apply Permutation_swap|]. apply Permutation_skip, Permutation_swap. }
  split; [exact Hperm|]. exact (MergeSummaries_permutation _ _ Hperm).
Defined.

(** Witness for X7: the virtual machine does not pass the provider filter,
    the three others fall into one bucket each. *)
Lemma BuildSummary_totals_add_up_witness :
  Z.of_nat (length [web; unknown; vpc; vm]) < 2 ^ 63
  /\ exists supported unsupported noPrice : Z,
      TotalSupportedResources
        (BuildSummary prefixProvider [web; unknown; vpc; vm] (allFields false))
      = Some supported
      /\ TotalUnsupportedResources
           (BuildSummary prefixProvider [web; unknown; vpc; vm] (allFields false))
         = Some unsupported
      /\ TotalNoPriceResources
           (BuildSummary prefixProvider [web; unknown; vpc; vm] (allFields false))
         = Some noPrice
      /\ supported + unsupported + noPrice = 3.
Proof.
  assert (Z.of_nat (length [web; unknown; vpc; vm]) < 2 ^ 63) as Hlen by reflexivity.
  split; [exact Hlen|].
  destruct (BuildSummary_totals_add_up prefixProvider [web; unknown; vpc; vm] false Hlen)
    as (s & u & n & Hs & Hu & Hn & _ & _ & _ & _ & Hsum & _).
  exists s, u, n. split; [exact Hs|]. split; [exact Hu|]. split; [exact Hn|].
  exact Hsum.
Defined.

(** Witness for X8. *)
Lemma BuildSummary_permutation_witness :
  [web; unknown; db] ≡ₚ [unknown; db; web]
  /\ BuildSummary prefixProvider [web; unknown; db] (allFields true)
     = BuildSummary prefixProvider [unknown; db; web] (allFields true).
Proof.
  assert ([web; unknown; db] ≡ₚ [unknown; db; web]) as Hperm.
  { etrans; [apply Permutation_swap|]. apply Permutation_skip, Permutation_swap. }
  split; [exact Hperm|].
  exact (BuildSummary_permutation prefixProvider _ _ (allFields true) Hperm).
Defined.

(** Witness for X9. *)
Lemma BuildSummary_counts_add_up_witness :
  Z.of_nat (length [unknown; web; unknown]) < 2 ^ 63
  /\ UnsupportedResourceCounts
       (BuildSummary prefixProvider [unknown; web; unknown] (allFields true))
     = Some {["aws_new_thing" := 2]}
  /\ TotalUnsupportedResources
       (BuildSummary prefixProvider [unknown; web; unknown] (allFields true))
     = Some 2
  /\ mapSum {["aws_new_thing" := 2]} = 2.
Proof.
  assert (Z.of_nat (length [unknown; web; unknown]) < 2 ^ 63) as Hlen by reflexivity.
  assert (UnsupportedResourceCounts
            (BuildSummary prefixProvider [unknown; web; unknown] (allFields true))
          = Some {["aws_new_thing" := 2]}) as Hm by (by vm_compute).
  assert (TotalUnsupportedResources
            (BuildSummary prefixProvider [unknown; web; unknown] (allFields true))
          = Some 2) as Ht by reflexivity.
  split; [exact Hlen|]. split; [exact Hm|]. split; [exact Ht|].
  destruct (BuildSummary_counts_add_up prefixProvider [unknown; web; unknown]
              (allFields true) Hlen) as [_ Hu].
  exact (proj1 (Hu _ _ Hm Ht)).
Defined.

(** Witness for X10. *)
Lemma MergeSummaries_BuildSummary_concat_witness :
  [[web; unknown]; [unknown; db]; []] <> []
  /\ Z.of_nat (length (concat [[web; unknown]; [unknown; db]; []])) < 2 ^ 63
  /\ MergeSummaries
       ((fun l => Some (BuildSummary prefixProvider l (allFields true)))
          <$> [[web; unknown]; [unknown; db]; []])
     = BuildSummary prefixProvider [web; unknown; unknown; db] (allFields true).
Proof.
  assert ([[web; unknown]; [unknown; db]; []] <> []) as Hne by discriminate.
  assert (Z.of_nat (length (concat [[web; unknown]; [unknown; db]; []])) < 2 ^ 63)
    as Hlen by reflexivity.
  split; [exact Hne|]. split; [exact Hlen|].
  exact (MergeSummaries_BuildSummary_concat prefixProvider _ (allFields true) Hne Hlen).
Defined.

(** Witness for X13. *)
Lemma ToOutputFormat_merged_summaries_witness :
  let projects := [project "p" [web; unknown]; project "q" [unknown; vm]] in
  projects <> []
  /\ Z.of_nat (length (concat (schema.Resources <$> projects))) < 2 ^ 63
  /\ MergedSummary (ToOutputFormat prefixProvider 0 projects)
     = BuildSummary prefixProvider [web; unknown; unknown; vm]
         (mkSummaryOptions false ["UnsupportedResourceCounts"])
  /\ MergedFullSummary (ToOutputFormat prefixProvider 0 projects)
     = BuildSummary prefixProvider [web; unknown; unknown; vm]
         (mkSummaryOptions true []).
Proof.
  intros projects.
  assert (projects <> []) as Hne by discriminate.
  assert (Z.of_nat (length (concat (schema.Resources <$> projects))) < 2 ^ 63)
    as Hlen by reflexivity.
  split; [exact Hne|]. split; [exact Hlen|].
  exact (ToOutputFormat_merged_summaries prefixProvider 0 projects Hne Hlen).
Defined.

(** A report over two projects, the second with a diff. *)
Example ToOutputFormat_results_example :
  let r := ToOutputFormat prefixProvider 0
             [project "p" [web];
              schema.mkProject "q" (Some tt) [db] [web; db] [db] true] in
  ProjectName <$> ProjectResults r = ["p"; "q"]
  /\ (fun pr => bool_decide (is_Some (PastBreakdown pr))) <$> ProjectResults r
     = [false; true]
  /\ Name <$> rootResources r
     = ["aws_db_instance.db"; "aws_instance.web"; "aws_instance.web"].
Proof. by vm_compute. Qed.

(** A resource whose sub-resource has a cost component without monthly
    cost. *)
Example resourceHasNilCosts_example :
  let leaf := mkResource "leaf" ∅ ∅ None (usd 100)
                [mkCostComponent "storage" "GB" None None (mkDecimal 1 0) None None] [] in
  let parent := mkResource "parent" ∅ ∅ (usd 100) (usd 100) [] [leaf] in
  resourceHasNilCosts leaf = true
  /\ resourceHasNilCosts parent = true
  /\ resourceHasNilCosts (mkResource "alone" ∅ ∅ None (usd 100) [] []) = false.
Proof. by vm_compute. Qed.

(** ** [outputResource]: the whole tree is kept *)

(** The names of a resource and of its sub-resources at every depth, the
    resource first and the sub-resources in their order. *)
Fixpoint schemaNames {D : Type} (r : schema.Resource D) : list string :=
  match r with
  | schema.mkResource name _ _ _ _ _ _ _ subs => name :: flat_map schemaNames subs
  end.

Fixpoint resourceNames {D : Type} (r : Resource D) : list string :=
  match r with
  | mkResource name _ _ _ _ _ subs => name :: flat_map resourceNames subs
  end.

(** The names of the cost components of a resource and of its
    sub-resources at every depth. *)
Fixpoint schemaComponentNames {D : Type} (r : schema.Resource D) : list string :=
  match r with
  | schema.mkResource _ _ _ _ _ _ _ components subs =>
      (map schema.Name components ++ flat_map schemaComponentNames subs)%list
  end.

Fixpoint componentNames {D : Type} (r : Resource D) : list string :=
  match r with
  | mkResource _ _ _ _ _ components subs =>
      (map ccName components ++ flat_map componentNames subs)%list
  end.

Section SchemaResourceInduction.
Context {D : Type} (P : schema.Resource D -> Prop).
Hypothesis Hnode :
  forall name rtype isSkipped noPrice tags hourly monthly components subs,
    Forall P subs ->
    P (schema.mkResource name rtype isSkipped noPrice tags hourly monthly components subs).

Fixpoint schema_Resource_nested_ind (r : schema.Resource D) : P r :=
  match r with
  | schema.mkResource name rtype isSkipped noPrice tags hourly monthly components subs =>
      Hnode name rtype isSkipped noPrice tags hourly monthly components subs
        ((fix all (l : list (schema.Resource D)) : Forall P l :=
            match l with
            | [] => @List.Forall_nil (schema.Resource D) P
            | s :: l' =>
                @List.Forall_cons (schema.Resource D) P s l'
                  (schema_Resource_nested_ind s) (all l')
            end) subs)
  end.

End SchemaResourceInduction.

Section OutputResourceFacts.
Context {D : Type}.

(** X25. [outputResource] keeps the whole tree of a resource: the
    resource and its sub-resources at every depth come out under their
    names and in their order, skipped or not, and so do their cost
    components; the costs and tags of the resource are carried over and its
    metadata is empty. *)
Theorem outputResource_keeps_tree (r : schema.Resource D) :
  resourceNames (outputResource r) = schemaNames r
  /\ componentNames (outputResource r) = schemaComponentNames r
  /\ SubResources (outputResource r) = outputResource <$> schema.SubResources r
  /\ HourlyCost (outputResource r) = schema.rHourlyCost r
  /\ MonthlyCost (outputResource r) = schema.rMonthlyCost r
  /\ Tags (outputResource r) = schema.Tags r
  /\ Metadata (outputResource r) = ∅.
Proof.
  split; [|split; [|by destruct r]].
  - induction r as [name rtype isSkipped noPrice tags hourly monthly components subs IH]
      using schema_Resource_nested_ind.
    cbn [outputResource resourceNames schemaNames]. f_equal.
    induction IH as [|s subs Hs _ IHsubs]; [done|].
    cbn [map flat_map]. by rewrite Hs, IHsubs.
  - induction r as [name rtype isSkipped noPrice tags hourly monthly components subs IH]
      using schema_Resource_nested_ind.
    cbn [outputResource componentNames schemaComponentNames]. f_equal.
    + rewrite List.map_map. done.
    + induction IH as [|s subs Hs _ IHsubs]; [done|].
      cbn [map flat_map]. by rewrite Hs, IHsubs.
Qed.

End OutputResourceFacts.

(** A skipped sub-resource stays in the tree of its parent, while a skipped
    resource of the list is left out of the breakdown. *)
Example skipped_sub_resource_kept :
  let parent :=
    schema.mkResource "aws_instance.web" "aws_instance" false false ∅ (usd 100) (usd 73000)
      [] [skipped "ebs_block_device[0]" "aws_ebs_volume"] in
  (fun r => Name <$> SubResources r) <$> Resources (outputBreakdown [parent; unknown])
  = [["ebs_block_device[0]"]].
Proof. by vm_compute. Qed.
